(** * MediaPlayer platform of the Music Assistant integration

    A shallow embedding of [custom_components/mass/media_player.py]:
    the state projection [async_on_update], the debounced
    [queue_time_updated] handler, the command forwarders and the media
    resolver of [_async_play_media_advanced] / [_get_item_by_name].

    Python values are modelled as the code has them: [str] as [string]
    (restricted to ASCII text), [int] as [Z], [float] as an IEEE-754
    binary64 number ([spec_float] with [prec = 53], [emax = 1024]),
    [None]-able attributes as [option].  The entity is a record that
    methods mutate; a raised exception keeps the mutations done so far. *)

From Stdlib Require Import ZArith QArith Qabs Qround Bool List String Ascii Lia.
From Stdlib Require Import Floats.SpecFloat.
Import ListNotations.
Local Open Scope string_scope.
Local Open Scope Z_scope.

(* ===================================================================== *)
(** ** Python strings *)
(* ===================================================================== *)

Module PyStr.

(** [str.lower] on ASCII text. *)
Definition lower_ascii (c : ascii) : ascii :=
  let n := nat_of_ascii c in
  if (Nat.leb 65 n && Nat.leb n 90)%bool then ascii_of_nat (n + 32) else c.

Fixpoint lower (s : string) : string :=
  match s with
  | EmptyString => EmptyString
  | String c t => String (lower_ascii c) (lower t)
  end.

(** [sub in s]. *)
Fixpoint contains (sub s : string) : bool :=
  if String.prefix sub s then true
  else match s with
       | EmptyString => false
       | String _ t => contains sub t
       end.

Fixpoint drop (n : nat) (s : string) : string :=
  match n, s with
  | O, _ => s
  | S _, EmptyString => EmptyString
  | S k, String _ t => drop k t
  end.

(** [s.split(sep, 1)] for a non-empty [sep]: the text before and after
    the first occurrence of [sep], or [None] when [sep] does not occur
    (Python then returns the one-element list [[s]]). *)
Fixpoint split_once (sep s : string) : option (string * string) :=
  if String.prefix sep s then Some (EmptyString, drop (String.length sep) s)
  else match s with
       | EmptyString => None
       | String c t =>
           match split_once sep t with
           | Some (a, b) => Some (String c a, b)
           | None => None
           end
       end.

(** [s.replace(old, new)] for a non-empty [old]: non-overlapping
    occurrences, scanned from the left.  [skip] counts the characters
    of a matched occurrence still to be consumed. *)
Fixpoint replace_from (old new s : string) (skip : nat) : string :=
  match s with
  | EmptyString => EmptyString
  | String c t =>
      match skip with
      | S k => replace_from old new t k
      | O =>
          if String.prefix old s
          then new ++ replace_from old new t (Nat.pred (String.length old))
          else String c (replace_from old new t O)
      end
  end.

Definition replace (old new s : string) : string := replace_from old new s O.

Definition is_digit (c : ascii) : bool :=
  let n := nat_of_ascii c in (Nat.leb 48 n && Nat.leb n 57)%bool.

Fixpoint all_digits (s : string) : bool :=
  match s with
  | EmptyString => true
  | String c t => (is_digit c && all_digits t)%bool
  end.

(** [str.isnumeric] on ASCII text: non-empty, digits only. *)
Definition isnumeric (s : string) : bool :=
  match s with
  | EmptyString => false
  | _ => all_digits s
  end.

(** [sep.join(parts)]. *)
Definition join (sep : string) (parts : list string) : string :=
  String.concat sep parts.

(** Truthiness of a [str]. *)
Definition truthy (s : string) : bool :=
  match s with EmptyString => false | _ => true end.

End PyStr.

(* ===================================================================== *)
(** ** Python numbers *)
(* ===================================================================== *)

(** Exceptions the modelled code can raise. *)
Inductive exn : Type :=
| AttributeError
| KeyError
| ValueError
| OverflowError
| ZeroDivisionError.

Inductive outcome (A : Type) : Type :=
| Ok (a : A)
| Raised (e : exn).
Arguments Ok {A} a.
Arguments Raised {A} e.

Module PyNum.

(** A Python [float] is an IEEE-754 binary64 number. *)
Definition float : Type := spec_float.
Definition prec : Z := 53.
Definition emax : Z := 1024.

Definition fmul : float -> float -> float := SFmul prec emax.
Definition fdiv : float -> float -> float := SFdiv prec emax.
Definition fsub : float -> float -> float := SFsub prec emax.
Definition fleb : float -> float -> bool := SFleb.
Definition fltb : float -> float -> bool := SFltb.

(** [float(z)] for an [int] within the float range: round to nearest,
    ties to even (exact below [2^53]). *)
Definition of_int (z : Z) : float := binary_normalize prec emax z 0 false.

(** [int(x)]: truncation towards zero; [nan] and the infinities raise. *)
Definition to_int (x : float) : outcome Z :=
  match x with
  | S754_zero _ => Ok 0
  | S754_finite s m e => Ok (cond_Zopp s (Z.shiftl (Zpos m) e))
  | S754_infinity _ => Raised OverflowError
  | S754_nan => Raised ValueError
  end.

(** The rational a finite float stands for (0 for the others). *)
Definition to_Q (x : float) : Q :=
  match x with
  | S754_finite s m e =>
      match e with
      | Zneg p => Qmake (cond_Zopp s (Zpos m)) (2 ^ p)%positive
      | _ => inject_Z (cond_Zopp s (Zpos m) * 2 ^ e)
      end
  | _ => 0%Q
  end.

(** A number as the code meets it: an [int] or a [float]. *)
Inductive num : Type :=
| PyInt (z : Z)
| PyFloat (x : float).

Definition as_float (a : num) : float :=
  match a with
  | PyInt z => of_int z
  | PyFloat x => x
  end.

(** [a - b]: exact on two ints, binary64 otherwise. *)
Definition sub (a b : num) : num :=
  match a, b with
  | PyInt x, PyInt y => PyInt (x - y)
  | _, _ => PyFloat (fsub (as_float a) (as_float b))
  end.

(** [abs(a)]. *)
Definition abs (a : num) : num :=
  match a with
  | PyInt z => PyInt (Z.abs z)
  | PyFloat x => PyFloat (SFabs x)
  end.

(** [a > k] for an [int] literal [k]; a comparison with [nan] is false. *)
Definition gt_int (a : num) (k : Z) : bool :=
  match a with
  | PyInt z => Z.ltb k z
  | PyFloat x => fltb (of_int k) x
  end.

(** [a / b] on two ints (true division): the correctly rounded
    quotient, computed here from the two converted operands, which is
    exact for operands below [2^53]. *)
Definition truediv_int (a b : Z) : outcome float :=
  if Z.eqb b 0 then Raised ZeroDivisionError
  else Ok (fdiv (of_int a) (of_int b)).

End PyNum.

(* ===================================================================== *)
(** ** The engine's data model (mirrored, read-only) *)
(* ===================================================================== *)

(** [PlayerState]: the engine's playback states. *)
Inductive PlayerState : Type := IDLE | PLAYING | PAUSED.

(** The platform's states ([STATE_IDLE], [STATE_OFF], ...). *)
Inductive HAState : Type := STATE_IDLE | STATE_OFF | STATE_PAUSED | STATE_PLAYING.

Inductive RepeatMode : Type := RepeatOFF | RepeatONE | RepeatALL.

Definition RepeatMode_value (m : RepeatMode) : string :=
  match m with
  | RepeatOFF => "off"
  | RepeatONE => "one"
  | RepeatALL => "all"
  end.

(** [RepeatMode(repeat)]: the enum member with that value, else
    [ValueError]. *)
Definition RepeatMode_of (s : string) : outcome RepeatMode :=
  if String.eqb s "off" then Ok RepeatOFF
  else if String.eqb s "one" then Ok RepeatONE
  else if String.eqb s "all" then Ok RepeatALL
  else Raised ValueError.

Inductive QueueOption : Type := QueuePLAY | QueueREPLACE | QueueNEXT | QueueADD.

(** The media-type tag of a media item. *)
Inductive MediaType : Type := ARTIST | ALBUM | TRACK | PLAYLIST | RADIO.

Definition MediaType_value (t : MediaType) : string :=
  match t with
  | ARTIST => "artist"
  | ALBUM => "album"
  | TRACK => "track"
  | PLAYLIST => "playlist"
  | RADIO => "radio"
  end.

Definition MediaType_eqb (a b : MediaType) : bool :=
  String.eqb (MediaType_value a) (MediaType_value b).

(** [MediaType.ALL], as the list of type names handed to the search. *)
Definition MediaType_ALL : list string :=
  map MediaType_value [ARTIST; ALBUM; TRACK; PLAYLIST; RADIO].

Record Artist : Type := { artist_name : string }.

Record Album : Type := {
  album_name : string;
  album_artist : option Artist        (* [getattr(album, "artist", None)] *)
}.

Record MediaItem : Type := {
  media_type : MediaType;
  item_name : string;
  item_uri : string;
  version : string;                  (* empty when the item has none *)
  artists : list Artist;
  album : option Album
}.

Record MediaItemImage : Type := {
  image_provider : string;
  image_path : string
}.

Record QueueItem : Type := {
  qi_uri : string;
  qi_media_item : option MediaItem;
  qi_image : option MediaItemImage;
  qi_duration : Z
}.

Record PlayerQueue : Type := {
  queue_id : string;
  shuffle_enabled : bool;
  repeat_mode : RepeatMode;
  queue_elapsed_time : PyNum.num;
  queue_elapsed_time_last_updated : PyNum.num;
  current_item : option QueueItem
}.

Record Player : Type := {
  powered : bool;
  state : PlayerState;
  active_source : string;
  group_childs : list string;
  volume_level : Z;
  volume_muted : bool;
  elapsed_time : PyNum.num;
  elapsed_time_last_updated : PyNum.num;
  current_url : option string
}.

Record SearchResults : Type := {
  sr_tracks : list MediaItem;
  sr_albums : list MediaItem;
  sr_playlists : list MediaItem;
  sr_artists : list MediaItem;
  sr_radio : list MediaItem
}.

(** The engine client [self.mass], as the snapshot a method call sees:
    the queue table of [mass.players], the image-URL helper and the
    query functions of [mass.music].  [get_item] answers [None] where
    the engine raises [MediaNotFoundError]. *)
Record MusicAssistantClient : Type := {
  get_player_queue : string -> option PlayerQueue;
  get_image_url : MediaItemImage -> string;
  get_item : string -> string -> string -> option MediaItem;
  get_library_playlists : string -> list MediaItem;
  get_library_radios : string -> list MediaItem;
  get_library_albums : string -> list MediaItem;
  get_library_tracks : string -> list MediaItem;
  get_library_artists : string -> list MediaItem;
  search : string -> list string -> SearchResults
}.

(** The five library listings, by the name of the client method. *)
Inductive LibraryFunction : Type :=
| LibPlaylists | LibRadios | LibAlbums | LibTracks | LibArtists.

(** [func.__name__]. *)
Definition func_name (f : LibraryFunction) : string :=
  match f with
  | LibPlaylists => "get_library_playlists"
  | LibRadios => "get_library_radios"
  | LibAlbums => "get_library_albums"
  | LibTracks => "get_library_tracks"
  | LibArtists => "get_library_artists"
  end.

Definition library_items (mass : MusicAssistantClient) (f : LibraryFunction)
  : string -> list MediaItem :=
  match f with
  | LibPlaylists => get_library_playlists mass
  | LibRadios => get_library_radios mass
  | LibAlbums => get_library_albums mass
  | LibTracks => get_library_tracks mass
  | LibArtists => get_library_artists mass
  end.

(** [func in (get_library_tracks, get_library_albums)]. *)
Definition is_tracks_or_albums (f : LibraryFunction) : bool :=
  match f with
  | LibTracks | LibAlbums => true
  | _ => false
  end.

(* ===================================================================== *)
(** ** Calls leaving the adapter *)
(* ===================================================================== *)

(** What a method sends out, in order: commands and queries to the
    engine, and the state notification to the platform. *)
Inductive Effect : Type :=
| queue_command_play (target : string)
| queue_command_pause (target : string)
| queue_command_stop (target : string)
| queue_command_next (target : string)
| queue_command_previous (target : string)
| queue_command_seek (target : string) (position : Z)
| queue_command_shuffle (target : string) (shuffle : bool)
| queue_command_repeat (target : string) (mode : RepeatMode)
| queue_command_clear (target : string)
| player_command_volume_mute (target : string) (mute : bool)
| player_command_volume_set (target : string) (volume : Z)
| player_command_volume_up (target : string)
| player_command_volume_down (target : string)
| player_command_power (target : string) (on : bool)
| play_media (target : string) (media : list string)
    (option_ : option QueueOption) (radio_mode : option bool)
| music_get_item (mtype item_id provider : string)
| music_get_library (func : LibraryFunction) (search_ : string)
| music_search (name : string) (media_types : list string)
| async_write_ha_state.

Definition is_play_media (e : Effect) : bool :=
  match e with play_media _ _ _ _ => true | _ => false end.

(* ===================================================================== *)
(** ** The adapter entity *)
(* ===================================================================== *)

(** [from_utc_timestamp] of the engine's helpers, kept symbolic. *)
Inductive datetime : Type := from_utc_timestamp (ts : PyNum.num).

(** The integration's domain (the component's directory name). *)
Definition DOMAIN : string := "mass".

(** [MassPlayer]: the engine client, the player it mirrors ([self.player],
    [self.available] of the base entity), the projected attributes and
    the debounce counter [_prev_time]. *)
Record MassPlayer : Type := {
  mass : MusicAssistantClient;
  player_id : string;
  player : Player;
  available : bool;
  _attr_media_image_remotely_accessible : bool;
  _attr_state : option HAState;
  _attr_app_id : option string;
  _attr_shuffle : option bool;
  _attr_repeat : option string;
  _attr_group_members : option (list string);
  _attr_volume_level : option PyNum.float;
  _attr_is_volume_muted : option bool;
  _attr_media_position : option PyNum.num;
  _attr_media_position_updated_at : option datetime;
  _attr_media_duration : option Z;
  _attr_media_album_artist : option string;
  _attr_media_artist : option string;
  _attr_media_album_name : option string;
  _attr_media_title : option string;
  _attr_media_content_id : option string;
  _attr_media_image_url : option string;
  _prev_time : PyNum.num
}.

(** Attribute assignment [self.<field> = v]. *)
Definition set_attr_media_image_remotely_accessible (v : bool) (self : MassPlayer) : MassPlayer :=
  {| mass := mass self; player_id := player_id self; player := player
     self; available := available self;
     _attr_media_image_remotely_accessible := v; _attr_state :=
     _attr_state self; _attr_app_id := _attr_app_id self; _attr_shuffle :=
     _attr_shuffle self; _attr_repeat := _attr_repeat self;
     _attr_group_members := _attr_group_members self; _attr_volume_level
     := _attr_volume_level self; _attr_is_volume_muted :=
     _attr_is_volume_muted self; _attr_media_position :=
     _attr_media_position self; _attr_media_position_updated_at :=
     _attr_media_position_updated_at self; _attr_media_duration :=
     _attr_media_duration self; _attr_media_album_artist :=
     _attr_media_album_artist self; _attr_media_artist :=
     _attr_media_artist self; _attr_media_album_name :=
     _attr_media_album_name self; _attr_media_title := _attr_media_title
     self; _attr_media_content_id := _attr_media_content_id self;
     _attr_media_image_url := _attr_media_image_url self; _prev_time :=
     _prev_time self |}.

Definition set_attr_state (v : option HAState) (self : MassPlayer) : MassPlayer :=
  {| mass := mass self; player_id := player_id self; player := player
     self; available := available self;
     _attr_media_image_remotely_accessible :=
     _attr_media_image_remotely_accessible self; _attr_state := v;
     _attr_app_id := _attr_app_id self; _attr_shuffle := _attr_shuffle
     self; _attr_repeat := _attr_repeat self; _attr_group_members :=
     _attr_group_members self; _attr_volume_level := _attr_volume_level
     self; _attr_is_volume_muted := _attr_is_volume_muted self;
     _attr_media_position := _attr_media_position self;
     _attr_media_position_updated_at := _attr_media_position_updated_at
     self; _attr_media_duration := _attr_media_duration self;
     _attr_media_album_artist := _attr_media_album_artist self;
     _attr_media_artist := _attr_media_artist self; _attr_media_album_name
     := _attr_media_album_name self; _attr_media_title :=
     _attr_media_title self; _attr_media_content_id :=
     _attr_media_content_id self; _attr_media_image_url :=
     _attr_media_image_url self; _prev_time := _prev_time self |}.

Definition set_attr_app_id (v : option string) (self : MassPlayer) : MassPlayer :=
  {| mass := mass self; player_id := player_id self; player := player
     self; available := available self;
     _attr_media_image_remotely_accessible :=
     _attr_media_image_remotely_accessible self; _attr_state :=
     _attr_state self; _attr_app_id := v; _attr_shuffle := _attr_shuffle
     self; _attr_repeat := _attr_repeat self; _attr_group_members :=
     _attr_group_members self; _attr_volume_level := _attr_volume_level
     self; _attr_is_volume_muted := _attr_is_volume_muted self;
     _attr_media_position := _attr_media_position self;
     _attr_media_position_updated_at := _attr_media_position_updated_at
     self; _attr_media_duration := _attr_media_duration self;
     _attr_media_album_artist := _attr_media_album_artist self;
     _attr_media_artist := _attr_media_artist self; _attr_media_album_name
     := _attr_media_album_name self; _attr_media_title :=
     _attr_media_title self; _attr_media_content_id :=
     _attr_media_content_id self; _attr_media_image_url :=
     _attr_media_image_url self; _prev_time := _prev_time self |}.

Definition set_attr_shuffle (v : option bool) (self : MassPlayer) : MassPlayer :=
  {| mass := mass self; player_id := player_id self; player := player
     self; available := available self;
     _attr_media_image_remotely_accessible :=
     _attr_media_image_remotely_accessible self; _attr_state :=
     _attr_state self; _attr_app_id := _attr_app_id self; _attr_shuffle :=
     v; _attr_repeat := _attr_repeat self; _attr_group_members :=
     _attr_group_members self; _attr_volume_level := _attr_volume_level
     self; _attr_is_volume_muted := _attr_is_volume_muted self;
     _attr_media_position := _attr_media_position self;
     _attr_media_position_updated_at := _attr_media_position_updated_at
     self; _attr_media_duration := _attr_media_duration self;
     _attr_media_album_artist := _attr_media_album_artist self;
     _attr_media_artist := _attr_media_artist self; _attr_media_album_name
     := _attr_media_album_name self; _attr_media_title :=
     _attr_media_title self; _attr_media_content_id :=
     _attr_media_content_id self; _attr_media_image_url :=
     _attr_media_image_url self; _prev_time := _prev_time self |}.

Definition set_attr_repeat (v : option string) (self : MassPlayer) : MassPlayer :=
  {| mass := mass self; player_id := player_id self; player := player
     self; available := available self;
     _attr_media_image_remotely_accessible :=
     _attr_media_image_remotely_accessible self; _attr_state :=
     _attr_state self; _attr_app_id := _attr_app_id self; _attr_shuffle :=
     _attr_shuffle self; _attr_repeat := v; _attr_group_members :=
     _attr_group_members self; _attr_volume_level := _attr_volume_level
     self; _attr_is_volume_muted := _attr_is_volume_muted self;
     _attr_media_position := _attr_media_position self;
     _attr_media_position_updated_at := _attr_media_position_updated_at
     self; _attr_media_duration := _attr_media_duration self;
     _attr_media_album_artist := _attr_media_album_artist self;
     _attr_media_artist := _attr_media_artist self; _attr_media_album_name
     := _attr_media_album_name self; _attr_media_title :=
     _attr_media_title self; _attr_media_content_id :=
     _attr_media_content_id self; _attr_media_image_url :=
     _attr_media_image_url self; _prev_time := _prev_time self |}.

Definition set_attr_group_members (v : option (list string)) (self : MassPlayer) : MassPlayer :=
  {| mass := mass self; player_id := player_id self; player := player
     self; available := available self;
     _attr_media_image_remotely_accessible :=
     _attr_media_image_remotely_accessible self; _attr_state :=
     _attr_state self; _attr_app_id := _attr_app_id self; _attr_shuffle :=
     _attr_shuffle self; _attr_repeat := _attr_repeat self;
     _attr_group_members := v; _attr_volume_level := _attr_volume_level
     self; _attr_is_volume_muted := _attr_is_volume_muted self;
     _attr_media_position := _attr_media_position self;
     _attr_media_position_updated_at := _attr_media_position_updated_at
     self; _attr_media_duration := _attr_media_duration self;
     _attr_media_album_artist := _attr_media_album_artist self;
     _attr_media_artist := _attr_media_artist self; _attr_media_album_name
     := _attr_media_album_name self; _attr_media_title :=
     _attr_media_title self; _attr_media_content_id :=
     _attr_media_content_id self; _attr_media_image_url :=
     _attr_media_image_url self; _prev_time := _prev_time self |}.

Definition set_attr_volume_level (v : option PyNum.float) (self : MassPlayer) : MassPlayer :=
  {| mass := mass self; player_id := player_id self; player := player
     self; available := available self;
     _attr_media_image_remotely_accessible :=
     _attr_media_image_remotely_accessible self; _attr_state :=
     _attr_state self; _attr_app_id := _attr_app_id self; _attr_shuffle :=
     _attr_shuffle self; _attr_repeat := _attr_repeat self;
     _attr_group_members := _attr_group_members self; _attr_volume_level
     := v; _attr_is_volume_muted := _attr_is_volume_muted self;
     _attr_media_position := _attr_media_position self;
     _attr_media_position_updated_at := _attr_media_position_updated_at
     self; _attr_media_duration := _attr_media_duration self;
     _attr_media_album_artist := _attr_media_album_artist self;
     _attr_media_artist := _attr_media_artist self; _attr_media_album_name
     := _attr_media_album_name self; _attr_media_title :=
     _attr_media_title self; _attr_media_content_id :=
     _attr_media_content_id self; _attr_media_image_url :=
     _attr_media_image_url self; _prev_time := _prev_time self |}.

Definition set_attr_is_volume_muted (v : option bool) (self : MassPlayer) : MassPlayer :=
  {| mass := mass self; player_id := player_id self; player := player
     self; available := available self;
     _attr_media_image_remotely_accessible :=
     _attr_media_image_remotely_accessible self; _attr_state :=
     _attr_state self; _attr_app_id := _attr_app_id self; _attr_shuffle :=
     _attr_shuffle self; _attr_repeat := _attr_repeat self;
     _attr_group_members := _attr_group_members self; _attr_volume_level
     := _attr_volume_level self; _attr_is_volume_muted := v;
     _attr_media_position := _attr_media_position self;
     _attr_media_position_updated_at := _attr_media_position_updated_at
     self; _attr_media_duration := _attr_media_duration self;
     _attr_media_album_artist := _attr_media_album_artist self;
     _attr_media_artist := _attr_media_artist self; _attr_media_album_name
     := _attr_media_album_name self; _attr_media_title :=
     _attr_media_title self; _attr_media_content_id :=
     _attr_media_content_id self; _attr_media_image_url :=
     _attr_media_image_url self; _prev_time := _prev_time self |}.

Definition set_attr_media_position (v : option PyNum.num) (self : MassPlayer) : MassPlayer :=
  {| mass := mass self; player_id := player_id self; player := player
     self; available := available self;
     _attr_media_image_remotely_accessible :=
     _attr_media_image_remotely_accessible self; _attr_state :=
     _attr_state self; _attr_app_id := _attr_app_id self; _attr_shuffle :=
     _attr_shuffle self; _attr_repeat := _attr_repeat self;
     _attr_group_members := _attr_group_members self; _attr_volume_level
     := _attr_volume_level self; _attr_is_volume_muted :=
     _attr_is_volume_muted self; _attr_media_position := v;
     _attr_media_position_updated_at := _attr_media_position_updated_at
     self; _attr_media_duration := _attr_media_duration self;
     _attr_media_album_artist := _attr_media_album_artist self;
     _attr_media_artist := _attr_media_artist self; _attr_media_album_name
     := _attr_media_album_name self; _attr_media_title :=
     _attr_media_title self; _attr_media_content_id :=
     _attr_media_content_id self; _attr_media_image_url :=
     _attr_media_image_url self; _prev_time := _prev_time self |}.

Definition set_attr_media_position_updated_at (v : option datetime) (self : MassPlayer) : MassPlayer :=
  {| mass := mass self; player_id := player_id self; player := player
     self; available := available self;
     _attr_media_image_remotely_accessible :=
     _attr_media_image_remotely_accessible self; _attr_state :=
     _attr_state self; _attr_app_id := _attr_app_id self; _attr_shuffle :=
     _attr_shuffle self; _attr_repeat := _attr_repeat self;
     _attr_group_members := _attr_group_members self; _attr_volume_level
     := _attr_volume_level self; _attr_is_volume_muted :=
     _attr_is_volume_muted self; _attr_media_position :=
     _attr_media_position self; _attr_media_position_updated_at := v;
     _attr_media_duration := _attr_media_duration self;
     _attr_media_album_artist := _attr_media_album_artist self;
     _attr_media_artist := _attr_media_artist self; _attr_media_album_name
     := _attr_media_album_name self; _attr_media_title :=
     _attr_media_title self; _attr_media_content_id :=
     _attr_media_content_id self; _attr_media_image_url :=
     _attr_media_image_url self; _prev_time := _prev_time self |}.

Definition set_attr_media_duration (v : option Z) (self : MassPlayer) : MassPlayer :=
  {| mass := mass self; player_id := player_id self; player := player
     self; available := available self;
     _attr_media_image_remotely_accessible :=
     _attr_media_image_remotely_accessible self; _attr_state :=
     _attr_state self; _attr_app_id := _attr_app_id self; _attr_shuffle :=
     _attr_shuffle self; _attr_repeat := _attr_repeat self;
     _attr_group_members := _attr_group_members self; _attr_volume_level
     := _attr_volume_level self; _attr_is_volume_muted :=
     _attr_is_volume_muted self; _attr_media_position :=
     _attr_media_position self; _attr_media_position_updated_at :=
     _attr_media_position_updated_at self; _attr_media_duration := v;
     _attr_media_album_artist := _attr_media_album_artist self;
     _attr_media_artist := _attr_media_artist self; _attr_media_album_name
     := _attr_media_album_name self; _attr_media_title :=
     _attr_media_title self; _attr_media_content_id :=
     _attr_media_content_id self; _attr_media_image_url :=
     _attr_media_image_url self; _prev_time := _prev_time self |}.

Definition set_attr_media_album_artist (v : option string) (self : MassPlayer) : MassPlayer :=
  {| mass := mass self; player_id := player_id self; player := player
     self; available := available self;
     _attr_media_image_remotely_accessible :=
     _attr_media_image_remotely_accessible self; _attr_state :=
     _attr_state self; _attr_app_id := _attr_app_id self; _attr_shuffle :=
     _attr_shuffle self; _attr_repeat := _attr_repeat self;
     _attr_group_members := _attr_group_members self; _attr_volume_level
     := _attr_volume_level self; _attr_is_volume_muted :=
     _attr_is_volume_muted self; _attr_media_position :=
     _attr_media_position self; _attr_media_position_updated_at :=
     _attr_media_position_updated_at self; _attr_media_duration :=
     _attr_media_duration self; _attr_media_album_artist := v;
     _attr_media_artist := _attr_media_artist self; _attr_media_album_name
     := _attr_media_album_name self; _attr_media_title :=
     _attr_media_title self; _attr_media_content_id :=
     _attr_media_content_id self; _attr_media_image_url :=
     _attr_media_image_url self; _prev_time := _prev_time self |}.

Definition set_attr_media_artist (v : option string) (self : MassPlayer) : MassPlayer :=
  {| mass := mass self; player_id := player_id self; player := player
     self; available := available self;
     _attr_media_image_remotely_accessible :=
     _attr_media_image_remotely_accessible self; _attr_state :=
     _attr_state self; _attr_app_id := _attr_app_id self; _attr_shuffle :=
     _attr_shuffle self; _attr_repeat := _attr_repeat self;
     _attr_group_members := _attr_group_members self; _attr_volume_level
     := _attr_volume_level self; _attr_is_volume_muted :=
     _attr_is_volume_muted self; _attr_media_position :=
     _attr_media_position self; _attr_media_position_updated_at :=
     _attr_media_position_updated_at self; _attr_media_duration :=
     _attr_media_duration self; _attr_media_album_artist :=
     _attr_media_album_artist self; _attr_media_artist := v;
     _attr_media_album_name := _attr_media_album_name self;
     _attr_media_title := _attr_media_title self; _attr_media_content_id
     := _attr_media_content_id self; _attr_media_image_url :=
     _attr_media_image_url self; _prev_time := _prev_time self |}.

Definition set_attr_media_album_name (v : option string) (self : MassPlayer) : MassPlayer :=
  {| mass := mass self; player_id := player_id self; player := player
     self; available := available self;
     _attr_media_image_remotely_accessible :=
     _attr_media_image_remotely_accessible self; _attr_state :=
     _attr_state self; _attr_app_id := _attr_app_id self; _attr_shuffle :=
     _attr_shuffle self; _attr_repeat := _attr_repeat self;
     _attr_group_members := _attr_group_members self; _attr_volume_level
     := _attr_volume_level self; _attr_is_volume_muted :=
     _attr_is_volume_muted self; _attr_media_position :=
     _attr_media_position self; _attr_media_position_updated_at :=
     _attr_media_position_updated_at self; _attr_media_duration :=
     _attr_media_duration self; _attr_media_album_artist :=
     _attr_media_album_artist self; _attr_media_artist :=
     _attr_media_artist self; _attr_media_album_name := v;
     _attr_media_title := _attr_media_title self; _attr_media_content_id
     := _attr_media_content_id self; _attr_media_image_url :=
     _attr_media_image_url self; _prev_time := _prev_time self |}.

Definition set_attr_media_title (v : option string) (self : MassPlayer) : MassPlayer :=
  {| mass := mass self; player_id := player_id self; player := player
     self; available := available self;
     _attr_media_image_remotely_accessible :=
     _attr_media_image_remotely_accessible self; _attr_state :=
     _attr_state self; _attr_app_id := _attr_app_id self; _attr_shuffle :=
     _attr_shuffle self; _attr_repeat := _attr_repeat self;
     _attr_group_members := _attr_group_members self; _attr_volume_level
     := _attr_volume_level self; _attr_is_volume_muted :=
     _attr_is_volume_muted self; _attr_media_position :=
     _attr_media_position self; _attr_media_position_updated_at :=
     _attr_media_position_updated_at self; _attr_media_duration :=
     _attr_media_duration self; _attr_media_album_artist :=
     _attr_media_album_artist self; _attr_media_artist :=
     _attr_media_artist self; _attr_media_album_name :=
     _attr_media_album_name self; _attr_media_title := v;
     _attr_media_content_id := _attr_media_content_id self;
     _attr_media_image_url := _attr_media_image_url self; _prev_time :=
     _prev_time self |}.

Definition set_attr_media_content_id (v : option string) (self : MassPlayer) : MassPlayer :=
  {| mass := mass self; player_id := player_id self; player := player
     self; available := available self;
     _attr_media_image_remotely_accessible :=
     _attr_media_image_remotely_accessible self; _attr_state :=
     _attr_state self; _attr_app_id := _attr_app_id self; _attr_shuffle :=
     _attr_shuffle self; _attr_repeat := _attr_repeat self;
     _attr_group_members := _attr_group_members self; _attr_volume_level
     := _attr_volume_level self; _attr_is_volume_muted :=
     _attr_is_volume_muted self; _attr_media_position :=
     _attr_media_position self; _attr_media_position_updated_at :=
     _attr_media_position_updated_at self; _attr_media_duration :=
     _attr_media_duration self; _attr_media_album_artist :=
     _attr_media_album_artist self; _attr_media_artist :=
     _attr_media_artist self; _attr_media_album_name :=
     _attr_media_album_name self; _attr_media_title := _attr_media_title
     self; _attr_media_content_id := v; _attr_media_image_url :=
     _attr_media_image_url self; _prev_time := _prev_time self |}.

Definition set_attr_media_image_url (v : option string) (self : MassPlayer) : MassPlayer :=
  {| mass := mass self; player_id := player_id self; player := player
     self; available := available self;
     _attr_media_image_remotely_accessible :=
     _attr_media_image_remotely_accessible self; _attr_state :=
     _attr_state self; _attr_app_id := _attr_app_id self; _attr_shuffle :=
     _attr_shuffle self; _attr_repeat := _attr_repeat self;
     _attr_group_members := _attr_group_members self; _attr_volume_level
     := _attr_volume_level self; _attr_is_volume_muted :=
     _attr_is_volume_muted self; _attr_media_position :=
     _attr_media_position self; _attr_media_position_updated_at :=
     _attr_media_position_updated_at self; _attr_media_duration :=
     _attr_media_duration self; _attr_media_album_artist :=
     _attr_media_album_artist self; _attr_media_artist :=
     _attr_media_artist self; _attr_media_album_name :=
     _attr_media_album_name self; _attr_media_title := _attr_media_title
     self; _attr_media_content_id := _attr_media_content_id self;
     _attr_media_image_url := v; _prev_time := _prev_time self |}.

Definition set_prev_time (v : PyNum.num) (self : MassPlayer) : MassPlayer :=
  {| mass := mass self; player_id := player_id self; player := player
     self; available := available self;
     _attr_media_image_remotely_accessible :=
     _attr_media_image_remotely_accessible self; _attr_state :=
     _attr_state self; _attr_app_id := _attr_app_id self; _attr_shuffle :=
     _attr_shuffle self; _attr_repeat := _attr_repeat self;
     _attr_group_members := _attr_group_members self; _attr_volume_level
     := _attr_volume_level self; _attr_is_volume_muted :=
     _attr_is_volume_muted self; _attr_media_position :=
     _attr_media_position self; _attr_media_position_updated_at :=
     _attr_media_position_updated_at self; _attr_media_duration :=
     _attr_media_duration self; _attr_media_album_artist :=
     _attr_media_album_artist self; _attr_media_artist :=
     _attr_media_artist self; _attr_media_album_name :=
     _attr_media_album_name self; _attr_media_title := _attr_media_title
     self; _attr_media_content_id := _attr_media_content_id self;
     _attr_media_image_url := _attr_media_image_url self; _prev_time := v |}.

(** [MassPlayer.__init__]. *)
Definition MassPlayer_init (mass_ : MusicAssistantClient) (player_id_ : string)
    (player_ : Player) (available_ : bool) : MassPlayer :=
  {| mass := mass_; player_id := player_id_; player := player_;
     available := available_;
     _attr_media_image_remotely_accessible := true;
     _attr_state := None; _attr_app_id := None; _attr_shuffle := None;
     _attr_repeat := None; _attr_group_members := None;
     _attr_volume_level := None; _attr_is_volume_muted := None;
     _attr_media_position := None; _attr_media_position_updated_at := None;
     _attr_media_duration := None; _attr_media_album_artist := None;
     _attr_media_artist := None; _attr_media_album_name := None;
     _attr_media_title := None; _attr_media_content_id := None;
     _attr_media_image_url := None; _prev_time := PyNum.PyInt 0 |}.

(* ===================================================================== *)
(** ** Methods as computations on the entity *)
(* ===================================================================== *)

(** A method run: the entity as the method leaves it, the calls it sent
    out, and whether it returned or raised.  Assignments made before an
    exception stay. *)
Record run (A : Type) : Type := mkRun {
  final : MassPlayer;
  trace : list Effect;
  result : outcome A
}.
Arguments mkRun {A} _ _ _.
Arguments final {A} _.
Arguments trace {A} _.
Arguments result {A} _.

Definition M (A : Type) : Type := MassPlayer -> run A.

Definition ret {A : Type} (a : A) : M A :=
  fun self => mkRun self [] (Ok a).

Definition raise {A : Type} (e : exn) : M A :=
  fun self => mkRun self [] (Raised e).

Definition bind {A B : Type} (m : M A) (f : A -> M B) : M B :=
  fun self =>
    match m self with
    | mkRun self1 calls1 (Ok a) =>
        match f a self1 with
        | mkRun self2 calls2 res => mkRun self2 (calls1 ++ calls2) res
        end
    | mkRun self1 calls1 (Raised e) => mkRun self1 calls1 (Raised e)
    end.

Definition get_self : M MassPlayer :=
  fun self => mkRun self [] (Ok self).

Definition assign (f : MassPlayer -> MassPlayer) : M unit :=
  fun self => mkRun (f self) [] (Ok tt).

Definition emit (e : Effect) : M unit :=
  fun self => mkRun self [e] (Ok tt).

Definition lift {A : Type} (o : outcome A) : M A :=
  match o with
  | Ok a => ret a
  | Raised e => raise e
  end.

Declare Scope py_scope.
Delimit Scope py_scope with py.
Notation "x <- m ;; k" := (bind m (fun x => k))
  (at level 61, m at next level, right associativity) : py_scope.
Notation "m ;; k" := (bind m (fun _ => k))
  (at level 61, right associativity) : py_scope.
Local Open Scope py_scope.

(** *** State projection *)

Definition PlayerState_eqb (a b : PlayerState) : bool :=
  match a, b with
  | IDLE, IDLE | PLAYING, PLAYING | PAUSED, PAUSED => true
  | _, _ => false
  end.

Definition STATE_MAPPING : list (PlayerState * HAState) :=
  [ (IDLE, STATE_IDLE); (PLAYING, STATE_PLAYING); (PAUSED, STATE_PAUSED) ].

(** [STATE_MAPPING[key]]. *)
Definition STATE_MAPPING_getitem (key : PlayerState) : outcome HAState :=
  match find (fun kv => PlayerState_eqb (fst kv) key) STATE_MAPPING with
  | Some kv => Ok (snd kv)
  | None => Raised KeyError
  end.

Definition _update_media_image_url (queue : option PlayerQueue) : M unit :=
  self <- get_self ;;
  match queue with
  | None => assign (set_attr_media_image_url None)
  | Some q =>
      match current_item q with
      | None => assign (set_attr_media_image_url None)
      | Some item =>
          match qi_image item with
          | Some image =>
              assign (set_attr_media_image_remotely_accessible
                        (String.eqb (image_provider image) "url")) ;;
              assign (set_attr_media_image_url
                        (Some (get_image_url (mass self) image)))
          | None => assign (set_attr_media_image_url None)
          end
      end
  end.

(** The local variables [media_artist] ... [media_duration] of
    [async_on_update], as they stand before "set the attributes". *)
Record MediaInfos : Type := {
  media_artist : option string;
  media_album_artist : option string;
  media_album_name : option string;
  media_title : option string;
  media_content_id : option string;
  media_duration : option Z
}.

Definition current_media_infos (player_ : Player) (queue : option PlayerQueue)
  : MediaInfos :=
  let default :=
    {| media_artist := None; media_album_artist := None;
       media_album_name := None;
       media_title := Some (active_source player_);
       media_content_id := current_url player_;
       media_duration := None |} in
  match queue with
  | None => default
  | Some q =>
      match current_item q with
      | None => default
      | Some cur =>
          match qi_media_item cur with
          | None => default
          | Some media_item =>
              let title := item_name media_item in
              if MediaType_eqb (media_type media_item) TRACK then
                {| media_artist :=
                     Some (PyStr.join ", " (map artist_name (artists media_item)));
                   media_album_artist :=
                     match album media_item with
                     | Some alb =>
                         match album_artist alb with
                         | Some a => Some (artist_name a)
                         | None => None
                         end
                     | None => None
                     end;
                   media_album_name :=
                     match album media_item with
                     | Some alb => Some (album_name alb)
                     | None => None
                     end;
                   media_title :=
                     Some (if PyStr.truthy (version media_item)
                           then title ++ " (" ++ version media_item ++ ")"
                           else title);
                   media_content_id := Some (qi_uri cur);
                   media_duration := Some (qi_duration cur) |}
              else
                {| media_artist := None; media_album_artist := None;
                   media_album_name := None;
                   media_title := Some title;
                   media_content_id := Some (qi_uri cur);
                   media_duration := Some (qi_duration cur) |}
          end
      end
  end.

Definition async_on_update : M unit :=
  self <- get_self ;;
  if negb (available self) then ret tt
  else
    let player_ := player self in
    let queue := get_player_queue (mass self) (active_source player_) in
    (if powered player_
     then st <- lift (STATE_MAPPING_getitem (state player_)) ;;
          assign (set_attr_state (Some st))
     else assign (set_attr_state (Some STATE_OFF))) ;;
    assign (set_attr_app_id
              (Some match queue with
                    | Some _ => DOMAIN
                    | None => active_source player_
                    end)) ;;
    assign (set_attr_shuffle
              match queue with
              | Some q => Some (shuffle_enabled q)
              | None => None
              end) ;;
    assign (set_attr_repeat
              match queue with
              | Some q => Some (RepeatMode_value (repeat_mode q))
              | None => None
              end) ;;
    assign (set_attr_group_members (Some (group_childs player_))) ;;
    vol <- lift (PyNum.truediv_int (volume_level player_) 100) ;;
    assign (set_attr_volume_level (Some vol)) ;;
    assign (set_attr_is_volume_muted (Some (volume_muted player_))) ;;
    match queue with
    | Some q =>
        assign (set_attr_media_position (Some (queue_elapsed_time q))) ;;
        assign (set_attr_media_position_updated_at
                  (Some (from_utc_timestamp (queue_elapsed_time_last_updated q))))
    | None =>
        assign (set_attr_media_position (Some (elapsed_time player_))) ;;
        assign (set_attr_media_position_updated_at
                  (Some (from_utc_timestamp (elapsed_time_last_updated player_))))
    end ;;
    (* self._prev_time = queue.elapsed_time *)
    t <- match queue with
         | Some q => ret (queue_elapsed_time q)
         | None => raise AttributeError
         end ;;
    assign (set_prev_time t) ;;
    _update_media_image_url queue ;;
    let infos := current_media_infos player_ queue in
    assign (set_attr_media_artist (media_artist infos)) ;;
    assign (set_attr_media_album_artist (media_album_artist infos)) ;;
    assign (set_attr_media_album_name (media_album_name infos)) ;;
    assign (set_attr_media_title (media_title infos)) ;;
    assign (set_attr_media_content_id (media_content_id infos)) ;;
    assign (set_attr_media_duration (media_duration infos)).

(** *** The queue-time-updated subscription *)

Record MassEvent : Type := {
  object_id : string;
  data : PyNum.num
}.

Definition queue_time_updated (event : MassEvent) : M unit :=
  self <- get_self ;;
  if negb (String.eqb (object_id event) (active_source (player self)))
  then ret tt
  else
    (if PyNum.gt_int (PyNum.abs (PyNum.sub (_prev_time self) (data event))) 5
     then async_on_update ;; emit async_write_ha_state
     else ret tt) ;;
    assign (set_prev_time (data event)).

(** *** Command forwarding *)

Definition async_media_play : M unit :=
  self <- get_self ;;
  match get_player_queue (mass self) (active_source (player self)) with
  | Some queue => emit (queue_command_play (queue_id queue))
  | None => emit (queue_command_play (player_id self))
  end.

Definition async_media_pause : M unit :=
  self <- get_self ;;
  match get_player_queue (mass self) (active_source (player self)) with
  | Some queue => emit (queue_command_pause (queue_id queue))
  | None => emit (queue_command_pause (player_id self))
  end.

Definition async_media_stop : M unit :=
  self <- get_self ;;
  match get_player_queue (mass self) (active_source (player self)) with
  | Some queue => emit (queue_command_stop (queue_id queue))
  | None => emit (queue_command_stop (player_id self))
  end.

Definition async_media_next_track : M unit :=
  self <- get_self ;;
  match get_player_queue (mass self) (active_source (player self)) with
  | Some queue => emit (queue_command_next (queue_id queue))
  | None => emit (queue_command_next (player_id self))
  end.

Definition async_media_previous_track : M unit :=
  self <- get_self ;;
  match get_player_queue (mass self) (active_source (player self)) with
  | Some queue => emit (queue_command_previous (queue_id queue))
  | None => emit (queue_command_previous (player_id self))
  end.

(** [int(position)] on a number. *)
Definition py_int (a : PyNum.num) : outcome Z :=
  match a with
  | PyNum.PyInt z => Ok z
  | PyNum.PyFloat x => PyNum.to_int x
  end.

Definition async_media_seek (position : PyNum.num) : M unit :=
  position <- lift (py_int position) ;;
  self <- get_self ;;
  match get_player_queue (mass self) (active_source (player self)) with
  | Some queue => emit (queue_command_seek (queue_id queue) position)
  | None => emit (queue_command_seek (player_id self) position)
  end.

Definition async_mute_volume (mute : bool) : M unit :=
  self <- get_self ;;
  emit (player_command_volume_mute (player_id self) mute).

Definition async_set_volume_level (volume : PyNum.float) : M unit :=
  volume <- lift (PyNum.to_int (PyNum.fmul volume (PyNum.of_int 100))) ;;
  self <- get_self ;;
  emit (player_command_volume_set (player_id self) volume).

Definition async_volume_up : M unit :=
  self <- get_self ;;
  emit (player_command_volume_up (player_id self)).

Definition async_volume_down : M unit :=
  self <- get_self ;;
  emit (player_command_volume_down (player_id self)).

Definition async_turn_on : M unit :=
  self <- get_self ;;
  emit (player_command_power (player_id self) true).

Definition async_turn_off : M unit :=
  self <- get_self ;;
  emit (player_command_power (player_id self) false).

Definition async_set_shuffle (shuffle : bool) : M unit :=
  self <- get_self ;;
  match get_player_queue (mass self) (active_source (player self)) with
  | Some queue => emit (queue_command_shuffle (queue_id queue) shuffle)
  | None => emit (queue_command_shuffle (player_id self) shuffle)
  end.

Definition async_set_repeat (repeat : string) : M unit :=
  self <- get_self ;;
  match get_player_queue (mass self) (active_source (player self)) with
  | Some queue =>
      mode <- lift (RepeatMode_of repeat) ;;
      emit (queue_command_repeat (queue_id queue) mode)
  | None =>
      mode <- lift (RepeatMode_of repeat) ;;
      emit (queue_command_repeat (player_id self) mode)
  end.

Definition async_clear_playlist : M unit :=
  self <- get_self ;;
  match get_player_queue (mass self) (active_source (player self)) with
  | Some queue => emit (queue_command_clear (queue_id queue))
  | None => emit (queue_command_clear (player_id self))
  end.

(** *** Media resolution *)

(** Truthiness of the [media_type] argument ([None] and the empty
    string are false). *)
Definition hint_truthy (media_type_ : option string) : bool :=
  match media_type_ with
  | Some s => PyStr.truthy s
  | None => false
  end.

Definition hint_text (media_type_ : option string) : string :=
  match media_type_ with
  | Some s => s
  | None => EmptyString
  end.

(** [await self.mass.music.get_item(media_type, item_id, provider)] under
    [suppress(MediaNotFoundError)]. *)
Definition call_get_item (mtype item_id provider : string) : M (option MediaItem) :=
  self <- get_self ;;
  emit (music_get_item mtype item_id provider) ;;
  ret (get_item (mass self) mtype item_id provider).

(** [(await func(search=...)).items]. *)
Definition call_library (func : LibraryFunction) (search_ : string)
  : M (list MediaItem) :=
  self <- get_self ;;
  emit (music_get_library func search_) ;;
  ret (library_items (mass self) func search_).

(** [await self.mass.music.search(name, media_types=...)]. *)
Definition call_search (name : string) (media_types : list string)
  : M SearchResults :=
  self <- get_self ;;
  emit (music_search name media_types) ;;
  ret (search (mass self) name media_types).

Definition all_library_functions : list LibraryFunction :=
  [LibPlaylists; LibRadios; LibAlbums; LibTracks; LibArtists].

(** The voice-command scan: the first type keyword found in the search
    string becomes the media type and is removed from the string. *)
Fixpoint scan_type_keywords (keywords : list string) (searchname : string)
  : option string * string :=
  match keywords with
  | [] => (None, searchname)
  | media_type_str :: rest =>
      let media_type_subst_str := media_type_str ++ " " in
      if PyStr.contains media_type_subst_str searchname
      then (Some media_type_str, PyStr.replace media_type_subst_str "" searchname)
      else scan_type_keywords rest searchname
  end.

(** The test of the inner loops of the artist-split lookup. *)
Definition artist_title_match (artistname title : string) (item : MediaItem) : bool :=
  (String.eqb (PyStr.lower (item_name item)) title
   && existsb (fun artist => String.eqb (PyStr.lower (artist_name artist)) artistname)
        (artists item))%bool.

(** [for splitter in (" - ", " by "): ...] for one library function. *)
Fixpoint lookup_by_artist_split (func : LibraryFunction) (searchname : string)
    (splitters : list string) : M (option MediaItem) :=
  match splitters with
  | [] => ret None
  | splitter :: rest =>
      if PyStr.contains splitter searchname then
        match PyStr.split_once splitter searchname with
        | Some (artistname, title) =>
            items <- call_library func title ;;
            match find (artist_title_match artistname title) items with
            | Some item => ret (Some item)
            | None => lookup_by_artist_split func searchname rest
            end
        | None => raise ValueError     (* unpacking a one-element list *)
        end
      else lookup_by_artist_split func searchname rest
  end.

(** [for func in library_functions: ...]. *)
Fixpoint lookup_in_library (funcs : list LibraryFunction) (searchname : string)
  : M (option MediaItem) :=
  match funcs with
  | [] => ret None
  | func :: rest =>
      items <- call_library func searchname ;;
      match find (fun item => String.eqb searchname (PyStr.lower (item_name item))) items with
      | Some item => ret (Some item)
      | None =>
          found <- (if is_tracks_or_albums func
                    then lookup_by_artist_split func searchname [" - "; " by "]
                    else ret None) ;;
          match found with
          | Some item => ret (Some item)
          | None => lookup_in_library rest searchname
          end
      end
  end.

Definition _get_item_by_name (name : string) (media_type_ : option string)
  : M (option MediaItem) :=
  let searchname := PyStr.lower name in
  let library_functions :=
    filter (fun x => (negb (hint_truthy media_type_)
                      || PyStr.contains (PyStr.lower (hint_text media_type_)) (func_name x))%bool)
      all_library_functions in
  let '(media_type_, searchname) :=
    if negb (hint_truthy media_type_) then
      match scan_type_keywords ["artist"; "album"; "track"; "playlist"] searchname with
      | (Some t, stripped) => (Some t, stripped)
      | (None, _) => (media_type_, searchname)
      end
    else (media_type_, searchname) in
  found <- lookup_in_library library_functions searchname ;;
  match found with
  | Some item => ret (Some item)
  | None =>
      res <- call_search searchname
               (if hint_truthy media_type_ then [hint_text media_type_] else MediaType_ALL) ;;
      ret (hd_error (sr_tracks res ++ sr_albums res ++ sr_playlists res
                     ++ sr_artists res ++ sr_radio res))
  end.

(** One turn of the loop over [media_id]: the URI appended to
    [media_uris], if any. *)
Definition resolve_media_id (media_type_ : option string) (media_id_str : string)
  : M (option string) :=
  if PyStr.contains "://" media_id_str then ret (Some media_id_str)
  else
    by_id <- (if (hint_truthy media_type_ && PyStr.isnumeric media_id_str)%bool
              then call_get_item (hint_text media_type_) media_id_str "library"
              else ret None) ;;
    match by_id with
    | Some item => ret (Some (item_uri item))
    | None =>
        by_name <- _get_item_by_name media_id_str media_type_ ;;
        match by_name with
        | Some item => ret (Some (item_uri item))
        | None => ret None
        end
    end.

Fixpoint resolve_media_ids (media_type_ : option string) (media_id : list string)
    (media_uris : list string) : M (list string) :=
  match media_id with
  | [] => ret media_uris
  | media_id_str :: rest =>
      uri <- resolve_media_id media_type_ media_id_str ;;
      match uri with
      | Some u => resolve_media_ids media_type_ rest (media_uris ++ [u])
      | None => resolve_media_ids media_type_ rest media_uris
      end
  end.

Definition _async_play_media_advanced (media_id : list string)
    (enqueue : option QueueOption) (announce : option bool)
    (radio_mode : option bool) (media_type_ : option string) : M unit :=
  media_uris <- resolve_media_ids media_type_ media_id [] ;;
  match media_uris with
  | [] => ret tt
  | _ =>
      self <- get_self ;;
      let target :=
        match get_player_queue (mass self) (active_source (player self)) with
        | Some queue => queue_id queue
        | None => player_id self
        end in
      emit (play_media target media_uris enqueue radio_mode)
  end.

(** *** The platform's play-media entry point *)





(** *** Entity creation *)

(** What [async_setup_entry] keeps: the set [added_ids] and, in creation
    order, the player ids for which a [MassPlayer] was handed to
    [async_add_entities]. *)
Record SetupState : Type := {
  added_ids : list string;
  added_entities : list string
}.

(** [x in s] and [s.add(x)] on a set kept as a list. *)
Definition set_mem (x : string) (s : list string) : bool :=
  existsb (String.eqb x) s.

Definition set_add (x : string) (s : list string) : list string :=
  if set_mem x s then s else x :: s.

Definition handle_player_added (st : SetupState) (event : MassEvent) : SetupState :=
  if set_mem (object_id event) (added_ids st) then st
  else {| added_ids := set_add (object_id event) (added_ids st);
          added_entities := added_entities st ++ [object_id event] |}.

(** The loop over [mass.players], given as the list of their ids. *)
Definition async_setup_entry (players : list string) : SetupState :=
  fold_left
    (fun st player_id_ =>
       {| added_ids := set_add player_id_ (added_ids st);
          added_entities := added_entities st ++ [player_id_] |})
    players
    {| added_ids := []; added_entities := [] |}.

(** *** What the command forwarders are expected to do *)

(** Every queue-or-player command of the entity goes out as one call
    addressed to [target] and leaves the entity unchanged. *)
Definition forwards_to (self : MassPlayer) (target : string) : Prop :=
  async_media_play self = mkRun self [queue_command_play target] (Ok tt)
  /\ async_media_pause self = mkRun self [queue_command_pause target] (Ok tt)
  /\ async_media_stop self = mkRun self [queue_command_stop target] (Ok tt)
  /\ async_media_next_track self = mkRun self [queue_command_next target] (Ok tt)
  /\ async_media_previous_track self
     = mkRun self [queue_command_previous target] (Ok tt)
  /\ (forall (position : PyNum.num) (seconds : Z),
         py_int position = Ok seconds ->
         async_media_seek position self
         = mkRun self [queue_command_seek target seconds] (Ok tt))
  /\ (forall shuffle : bool,
         async_set_shuffle shuffle self
         = mkRun self [queue_command_shuffle target shuffle] (Ok tt))
  /\ (forall (repeat : string) (mode : RepeatMode),
         RepeatMode_of repeat = Ok mode ->
         async_set_repeat repeat self
         = mkRun self [queue_command_repeat target mode] (Ok tt))
  /\ async_clear_playlist self = mkRun self [queue_command_clear target] (Ok tt).

(** *** What the media resolver is expected to do *)

(** Lookups in the engine's library, as opposed to commands. *)
Definition is_query (e : Effect) : bool :=
  match e with
  | music_get_item _ _ _ | music_get_library _ _ | music_search _ _ => true
  | _ => false
  end.

(** A computation that only queries the engine: it returns, leaves the
    entity alone and sends out lookups only. *)
Definition query {A : Type} (m : M A) : Prop :=
  forall self : MassPlayer,
    final (m self) = self
    /\ forallb is_query (trace (m self)) = true
    /\ exists a, result (m self) = Ok a.

(** The URI one identifier resolves to, if it resolves. *)
Definition resolved (self : MassPlayer) (media_type_ : option string)
    (media_id_str : string) : option string :=
  match result (resolve_media_id media_type_ media_id_str self) with
  | Ok uri => uri
  | Raised _ => None
  end.

(** The URIs of the identifiers that resolve, in request order. *)
Definition resolved_uris (self : MassPlayer) (media_type_ : option string)
    (media_id : list string) : list string :=
  flat_map (fun media_id_str =>
              match resolved self media_type_ media_id_str with
              | Some uri => [uri]
              | None => []
              end) media_id.

(** *** What the volume projection is expected to yield *)

(** The float quotient [g / 100] is within [2^-54] of the exact
    [g/100]. *)
Definition volume_level_accurate (g : Z) : bool :=
  Qle_bool (Qabs (PyNum.to_Q (PyNum.fdiv (PyNum.of_int g) (PyNum.of_int 100))
                  - (g # 100))%Q)
    (1 # 2 ^ 54)%Q.

(** *** Further vocabulary for the properties below *)

(** A computation all of whose calls satisfy [P]. *)
Definition sends_only {A : Type} (P : Effect -> bool) (m : M A) : Prop :=
  forall self : MassPlayer, forallb P (trace (m self)) = true.

(** Calls a name lookup under the hint [hint] may make: listings whose
    method name contains the lowered hint, and searches of that type. *)
Definition allowed_by_hint (hint : string) (e : Effect) : bool :=
  match e with
  | music_get_library func _ => PyStr.contains (PyStr.lower hint) (func_name func)
  | music_search _ types =>
      match types with
      | [t] => String.eqb t hint
      | _ => false
      end
  | _ => false
  end.



(** The engine volume [g], projected to the platform and set again. *)
Definition volume_round_trip (g : Z) : outcome Z :=
  PyNum.to_int
    (PyNum.fmul (PyNum.fdiv (PyNum.of_int g) (PyNum.of_int 100)) (PyNum.of_int 100)).

(** The three engine volumes the round trip lowers by one. *)
Definition lossy_volumes : list Z := [29; 57; 58].

Definition volume_round_trip_expected (g : Z) : Z :=
  if existsb (Z.eqb g) lossy_volumes then g - 1 else g.

Definition volume_round_trip_as_expected (g : Z) : bool :=
  match volume_round_trip g with
  | Ok g' => Z.eqb g' (volume_round_trip_expected g)
  | Raised _ => false
  end.

(* ===================================================================== *)
(** ** A small engine to run the methods on *)
(* ===================================================================== *)

Module Demo.

Definition prince : Artist := {| artist_name := "prince" |}.

Definition purple_rain : MediaItem :=
  {| media_type := TRACK; item_name := "purple rain";
     item_uri := "library://track/7"; version := "";
     artists := [prince]; album := None |}.

Definition kiss : MediaItem :=
  {| media_type := TRACK; item_name := "Kiss";
     item_uri := "library://track/42"; version := "Extended";
     artists := [ {| artist_name := "Prince" |} ];
     album := Some {| album_name := "Parade";
                      album_artist := Some {| artist_name := "Prince" |} |} |}.

Definition paradise : MediaItem :=
  {| media_type := RADIO; item_name := "Radio Paradise";
     item_uri := "library://radio/3"; version := "Mellow Mix";
     artists := []; album := None |}.

Definition no_results : SearchResults :=
  {| sr_tracks := []; sr_albums := []; sr_playlists := [];
     sr_artists := []; sr_radio := [] |}.

(** A library listing: the items whose lowered name contains the
    lowered search text. *)
Definition listing (items : list MediaItem) (search_ : string) : list MediaItem :=
  filter (fun it => PyStr.contains (PyStr.lower search_) (PyStr.lower (item_name it)))
    items.

Definition radio_item : QueueItem :=
  {| qi_uri := "library://radio/3"; qi_media_item := Some paradise;
     qi_image := None; qi_duration := 0 |}.

Definition kiss_item : QueueItem :=
  {| qi_uri := "library://track/42"; qi_media_item := Some kiss;
     qi_image := Some {| image_provider := "url"; image_path := "http://img/kiss.jpg" |};
     qi_duration := 226 |}.

Definition radio_queue : PlayerQueue :=
  {| queue_id := "queue1"; shuffle_enabled := false; repeat_mode := RepeatOFF;
     queue_elapsed_time := PyNum.PyInt 100;
     queue_elapsed_time_last_updated := PyNum.PyInt 1700000000;
     current_item := Some radio_item |}.

Definition kiss_queue : PlayerQueue :=
  {| queue_id := "queue2"; shuffle_enabled := true; repeat_mode := RepeatALL;
     queue_elapsed_time := PyNum.PyInt 12;
     queue_elapsed_time_last_updated := PyNum.PyInt 1700000000;
     current_item := Some kiss_item |}.

Definition queues (qid : string) : option PlayerQueue :=
  if String.eqb qid "queue1" then Some radio_queue
  else if String.eqb qid "queue2" then Some kiss_queue
  else None.

Definition engine : MusicAssistantClient :=
  {| get_player_queue := queues;
     get_image_url := fun image => image_path image;
     get_item := fun mtype item_id provider =>
       if (String.eqb mtype "track" && String.eqb item_id "42"
           && String.eqb provider "library")%bool
       then Some kiss else None;
     get_library_playlists := listing [];
     get_library_radios := listing [paradise];
     get_library_albums := listing [];
     get_library_tracks := listing [purple_rain; kiss];
     get_library_artists := listing [];
     search := fun _ _ => no_results |}.

Definition player_on (source : string) (on : bool) (st : PlayerState) (vol : Z)
  : Player :=
  {| powered := on; state := st; active_source := source;
     group_childs := []; volume_level := vol; volume_muted := false;
     elapsed_time := PyNum.PyInt 7;
     elapsed_time_last_updated := PyNum.PyInt 1700000000;
     current_url := Some "http://stream/linein" |}.

(** An entity listening to the radio queue, one playing the track
    queue, and one on a line-in source that has no queue. *)
Definition radio_entity : MassPlayer :=
  MassPlayer_init engine "player1" (player_on "queue1" true PLAYING 29) true.

Definition kiss_entity : MassPlayer :=
  MassPlayer_init engine "player2" (player_on "queue2" true PAUSED 50) true.

Definition linein_entity : MassPlayer :=
  MassPlayer_init engine "player1" (player_on "linein" true PLAYING 29) true.

End Demo.

(* ===================================================================== *)
(** ** Proof support *)
(* ===================================================================== *)

Arguments PyNum.fdiv : simpl never.
Arguments PyNum.fmul : simpl never.
Arguments PyNum.fsub : simpl never.
Arguments PyNum.of_int : simpl never.
Arguments current_media_infos : simpl never.

Ltac unfold_monad :=
  unfold bind, get_self, assign, emit, lift, ret, raise.

(** Run a method symbolically, feeding in what is known about the
    engine snapshot. *)
Ltac run_method :=
  cbn;
  repeat match goal with
         | H : ?x = _ |- context [?x] => rewrite H; cbn
         end.

Ltac run_on_update :=
  unfold async_on_update, _update_media_image_url; unfold_monad; run_method.

(** [STATE_MAPPING] has an entry for every engine state. *)
Lemma STATE_MAPPING_total (s : PlayerState) :
  STATE_MAPPING_getitem s =
  Ok match s with
     | IDLE => STATE_IDLE
     | PLAYING => STATE_PLAYING
     | PAUSED => STATE_PAUSED
     end.
Proof. destruct s; reflexivity. Qed.

(** An unavailable entity is left untouched. *)
Lemma async_on_update_unavailable (self : MassPlayer) :
  available self = false -> async_on_update self = mkRun self [] (Ok tt).
Proof. intros Ha. run_on_update. reflexivity. Qed.

(** With an active queue the refresh returns, and the debounce counter
    is the queue's elapsed time. *)
Lemma async_on_update_with_queue (self : MassPlayer) (q : PlayerQueue) :
  available self = true ->
  get_player_queue (mass self) (active_source (player self)) = Some q ->
  result (async_on_update self) = Ok tt
  /\ trace (async_on_update self) = []
  /\ _prev_time (final (async_on_update self)) = queue_elapsed_time q
  /\ _attr_media_position (final (async_on_update self)) = Some (queue_elapsed_time q).
Proof.
  intros Ha Hq.
  destruct (powered (player self)) eqn:Hp; [destruct (state (player self)) eqn:Hs|];
    (destruct (current_item q) as [cur|] eqn:Hc; [destruct (qi_image cur) eqn:Hi|]);
    run_on_update; repeat split; reflexivity.
Qed.

(** Without an active queue the refresh stops at the assignment of the
    debounce counter: [queue.elapsed_time] on [None]. *)
Lemma async_on_update_without_queue (self : MassPlayer) :
  available self = true ->
  get_player_queue (mass self) (active_source (player self)) = None ->
  result (async_on_update self) = Raised AttributeError
  /\ _prev_time (final (async_on_update self)) = _prev_time self
  /\ _attr_media_title (final (async_on_update self)) = _attr_media_title self
  /\ _attr_media_position (final (async_on_update self)) = Some (elapsed_time (player self)).
Proof.
  intros Ha Hq.
  destruct (powered (player self)) eqn:Hp; [destruct (state (player self)) eqn:Hs|];
    run_on_update; repeat split; reflexivity.
Qed.

(** The media attributes a completed refresh writes are the local
    variables computed from the player and its queue. *)
Lemma async_on_update_media_infos (self : MassPlayer) (q : PlayerQueue) :
  available self = true ->
  get_player_queue (mass self) (active_source (player self)) = Some q ->
  let infos := current_media_infos (player self) (Some q) in
  let self' := final (async_on_update self) in
  _attr_media_title self' = media_title infos
  /\ _attr_media_content_id self' = media_content_id infos
  /\ _attr_media_duration self' = media_duration infos
  /\ _attr_media_artist self' = media_artist infos.
Proof.
  intros Ha Hq.
  destruct (powered (player self)) eqn:Hp; [destruct (state (player self)) eqn:Hs|];
    (destruct (current_item q) as [cur|] eqn:Hc; [destruct (qi_image cur) eqn:Hi|]);
    run_on_update; repeat split; reflexivity.
Qed.

(* ===================================================================== *)
(** ** State projection *)
(* ===================================================================== *)

(** C1 (fails on the code).  On the fallback path the debounce counter is
    not set and the refresh does not complete: for the available entity
    on the line-in source, which has no queue, [async_on_update] raises
    [AttributeError] at [self._prev_time = queue.elapsed_time]; the
    position was taken from the player, the counter keeps its old value
    and the media attributes are never written. *)
Theorem C1_refresh_without_queue_raises :
  available Demo.linein_entity = true
  /\ get_player_queue (mass Demo.linein_entity)
       (active_source (player Demo.linein_entity)) = None
  /\ result (async_on_update Demo.linein_entity) = Raised AttributeError
  /\ _attr_media_position (final (async_on_update Demo.linein_entity))
     = Some (elapsed_time (player Demo.linein_entity))
  /\ _prev_time (final (async_on_update Demo.linein_entity)) = PyNum.PyInt 0
  /\ _attr_media_title (final (async_on_update Demo.linein_entity)) = None.
Proof. repeat split; vm_compute; reflexivity. Qed.

(** C2, as stated, is false: the radio station playing on the demo queue
    carries a version tag, yet its title is projected without it. *)
Lemma C2_version_appended_for_any_type_fails :
  ~ (forall (self : MassPlayer) (q : PlayerQueue) (cur : QueueItem) (mi : MediaItem),
        available self = true ->
        get_player_queue (mass self) (active_source (player self)) = Some q ->
        current_item q = Some cur ->
        qi_media_item cur = Some mi ->
        PyStr.truthy (version mi) = true ->
        _attr_media_title (final (async_on_update self))
        = Some (item_name mi ++ " (" ++ version mi ++ ")")).
Proof.
  intros H.
  specialize (H Demo.radio_entity Demo.radio_queue Demo.radio_item Demo.paradise
                eq_refl eq_refl eq_refl eq_refl eq_refl).
  vm_compute in H. discriminate H.
Qed.

(** C2 (amended).  When the active queue's current item carries a media
    item, the content id is the queue item's URI, the duration is the
    queue item's duration, and the title is the item's name, with
    " (<version>)" appended exactly when the item is a track with a
    non-empty version; for every other type the title is the bare name. *)
Theorem C2_title_content_id_duration
    (self : MassPlayer) (q : PlayerQueue) (cur : QueueItem) (mi : MediaItem) :
  available self = true ->
  get_player_queue (mass self) (active_source (player self)) = Some q ->
  current_item q = Some cur ->
  qi_media_item cur = Some mi ->
  let self' := final (async_on_update self) in
  result (async_on_update self) = Ok tt
  /\ (media_type mi = TRACK -> PyStr.truthy (version mi) = true ->
      _attr_media_title self' = Some (item_name mi ++ " (" ++ version mi ++ ")"))
  /\ (media_type mi = TRACK -> version mi = "" ->
      _attr_media_title self' = Some (item_name mi))
  /\ (media_type mi <> TRACK -> _attr_media_title self' = Some (item_name mi))
  /\ _attr_media_content_id self' = Some (qi_uri cur)
  /\ _attr_media_duration self' = Some (qi_duration cur).
Proof.
  intros Ha Hq Hc Hm self'.
  destruct (async_on_update_with_queue self q Ha Hq) as (Hres & _).
  destruct (async_on_update_media_infos self q Ha Hq) as (Ht & Hi & Hd & _).
  subst self'. rewrite Ht, Hi, Hd.
  unfold current_media_infos. rewrite Hc, Hm.
  split; [exact Hres|].
  destruct (media_type mi) eqn:Hty; cbn;
    repeat split; intros; try reflexivity; try congruence.
  - replace (PyStr.truthy (version mi)) with true by congruence. reflexivity.
  - replace (version mi) with EmptyString by congruence. reflexivity.
Qed.

Lemma C2_title_content_id_duration_witness :
  _attr_media_title (final (async_on_update Demo.kiss_entity)) = Some "Kiss (Extended)"
  /\ _attr_media_title (final (async_on_update Demo.radio_entity)) = Some "Radio Paradise"
  /\ _attr_media_content_id (final (async_on_update Demo.kiss_entity))
     = Some "library://track/42"
  /\ _attr_media_duration (final (async_on_update Demo.kiss_entity)) = Some 226.
Proof.
  pose proof (C2_title_content_id_duration Demo.kiss_entity Demo.kiss_queue
                Demo.kiss_item Demo.kiss eq_refl eq_refl eq_refl eq_refl)
    as (_ & Hv & _ & _ & Hid & Hd).
  pose proof (C2_title_content_id_duration Demo.radio_entity Demo.radio_queue
                Demo.radio_item Demo.paradise eq_refl eq_refl eq_refl eq_refl)
    as (_ & _ & _ & Hr & _).
  split; [exact (Hv eq_refl eq_refl)|].
  split; [apply Hr; discriminate|].
  split; [exact Hid|exact Hd].
Defined.

(** C6.  After a refresh of an available entity the projected state is
    OFF when the player is not powered, whatever the engine's playback
    state; for a powered player idle, playing and paused are projected to
    the platform's idle, playing and paused. *)
Theorem C6_state_projection (self : MassPlayer) :
  available self = true ->
  let self' := final (async_on_update self) in
  (powered (player self) = false -> _attr_state self' = Some STATE_OFF)
  /\ (powered (player self) = true ->
      (state (player self) = IDLE -> _attr_state self' = Some STATE_IDLE)
      /\ (state (player self) = PLAYING -> _attr_state self' = Some STATE_PLAYING)
      /\ (state (player self) = PAUSED -> _attr_state self' = Some STATE_PAUSED)).
Proof.
  intros Ha self'. subst self'.
  destruct (get_player_queue (mass self) (active_source (player self))) as [q|] eqn:Hq;
    [destruct (current_item q) as [cur|] eqn:Hc; [destruct (qi_image cur) eqn:Hi|]|];
    (split; [intros Hp|intros Hp; repeat split; intros Hs]);
    run_on_update; reflexivity.
Qed.

Lemma C6_state_projection_witness :
  _attr_state (final (async_on_update
     (MassPlayer_init Demo.engine "player1" (Demo.player_on "queue1" false PLAYING 29) true)))
  = Some STATE_OFF
  /\ _attr_state (final (async_on_update Demo.kiss_entity)) = Some STATE_PAUSED.
Proof.
  split.
  - apply (C6_state_projection
             (MassPlayer_init Demo.engine "player1"
                (Demo.player_on "queue1" false PLAYING 29) true) eq_refl).
    reflexivity.
  - apply (C6_state_projection Demo.kiss_entity eq_refl); reflexivity.
Defined.

(* ===================================================================== *)
(** ** The debounced time update *)
(* ===================================================================== *)

(** A refresh of an entity whose active source is a known queue returns
    without sending anything out. *)
Lemma async_on_update_returns (self : MassPlayer) (q : PlayerQueue) :
  get_player_queue (mass self) (active_source (player self)) = Some q ->
  async_on_update self = mkRun (final (async_on_update self)) [] (Ok tt).
Proof.
  intros Hq. destruct (available self) eqn:Ha.
  - destruct (async_on_update_with_queue self q Ha Hq) as (Hres & Htr & _).
    destruct (async_on_update self) as [s t o]. cbn in *. subst. reflexivity.
  - rewrite (async_on_update_unavailable self Ha). reflexivity.
Qed.

(** C4.  A queue-time-updated event whose source is the player's active
    source (a queue the client knows) is handled without error; the
    refresh [async_on_update] followed by the platform notification
    [async_write_ha_state] happens exactly when
    [abs(_prev_time - event.data) > 5], and then the counter takes the
    event's time.  On whole seconds that condition is [5 < |p - d|]:
    from 100, an event at 103 sends nothing and an event at 106
    notifies. *)
Theorem C4_queue_time_debounce
    (self : MassPlayer) (event : MassEvent) (q : PlayerQueue) :
  object_id event = active_source (player self) ->
  get_player_queue (mass self) (object_id event) = Some q ->
  let r := queue_time_updated event self in
  let jump := PyNum.gt_int (PyNum.abs (PyNum.sub (_prev_time self) (data event))) 5 in
  result r = Ok tt
  /\ (In async_write_ha_state (trace r) <-> jump = true)
  /\ (jump = true ->
      trace r = [async_write_ha_state]
      /\ final r = set_prev_time (data event) (final (async_on_update self)))
  /\ (jump = false ->
      trace r = [] /\ final r = set_prev_time (data event) self)
  /\ (forall p d : Z,
         _prev_time self = PyNum.PyInt p -> data event = PyNum.PyInt d ->
         (jump = true <-> 5 < Z.abs (p - d)))
  /\ (_prev_time self = PyNum.PyInt 100 -> data event = PyNum.PyInt 103 ->
      trace r = [])
  /\ (_prev_time self = PyNum.PyInt 100 -> data event = PyNum.PyInt 106 ->
      trace r = [async_write_ha_state]).
Proof.
  intros Hid Hq r jump.
  rewrite Hid in Hq.
  pose proof (async_on_update_returns self q Hq) as Hrun.
  assert (Hr : r = if jump
                   then mkRun (set_prev_time (data event) (final (async_on_update self)))
                          [async_write_ha_state] (Ok tt)
                   else mkRun (set_prev_time (data event) self) [] (Ok tt)).
  { subst r jump. unfold queue_time_updated. unfold_monad.
    rewrite Hid, String.eqb_refl. cbn [negb].
    destruct (PyNum.gt_int _ 5).
    - rewrite Hrun. reflexivity.
    - reflexivity. }
  assert (Hint : forall p d : Z,
             _prev_time self = PyNum.PyInt p -> data event = PyNum.PyInt d ->
             (jump = true <-> 5 < Z.abs (p - d))).
  { intros p d Hp Hd. subst jump. rewrite Hp, Hd. cbn. apply Z.ltb_lt. }
  rewrite Hr.
  split; [destruct jump; reflexivity|].
  split.
  { destruct jump; cbn; split; intros H; auto; try discriminate; contradiction. }
  split; [intros ->; split; reflexivity|].
  split; [intros ->; split; reflexivity|].
  split; [exact Hint|].
  split; intros Hp Hd.
  - pose proof (Hint 100 103 Hp Hd) as [Hjump _].
    destruct jump; [|reflexivity].
    specialize (Hjump eq_refl). cbn in Hjump. lia.
  - pose proof (Hint 100 106 Hp Hd) as [_ Hjump].
    destruct jump; [reflexivity|].
    assert (5 < Z.abs (100 - 106)) as Hlt by (cbn; lia).
    discriminate (Hjump Hlt).
Qed.

Lemma C4_queue_time_debounce_witness :
  trace (queue_time_updated {| object_id := "queue1"; data := PyNum.PyInt 103 |}
           (set_prev_time (PyNum.PyInt 100) Demo.radio_entity)) = []
  /\ trace (queue_time_updated {| object_id := "queue1"; data := PyNum.PyInt 106 |}
              (set_prev_time (PyNum.PyInt 100) Demo.radio_entity))
     = [async_write_ha_state].
Proof.
  split.
  - apply (C4_queue_time_debounce (set_prev_time (PyNum.PyInt 100) Demo.radio_entity)
             {| object_id := "queue1"; data := PyNum.PyInt 103 |} Demo.radio_queue
             eq_refl eq_refl); reflexivity.
  - apply (C4_queue_time_debounce (set_prev_time (PyNum.PyInt 100) Demo.radio_entity)
             {| object_id := "queue1"; data := PyNum.PyInt 106 |} Demo.radio_queue
             eq_refl eq_refl); reflexivity.
Defined.

(** The same two events with [float] seconds, and with a stale [int]
    counter against a [float] event. *)
Example debounce_on_floats :
  let f z := PyNum.PyFloat (PyNum.of_int z) in
  PyNum.gt_int (PyNum.abs (PyNum.sub (f 100) (f 103))) 5 = false
  /\ PyNum.gt_int (PyNum.abs (PyNum.sub (f 100) (f 106))) 5 = true
  /\ PyNum.gt_int (PyNum.abs (PyNum.sub (PyNum.PyInt 0) (f 106))) 5 = true
  /\ PyNum.gt_int (PyNum.abs (PyNum.sub (f 100) (PyNum.PyFloat S754_nan))) 5 = false.
Proof. repeat split; vm_compute; reflexivity. Qed.

(** An event from another source changes nothing, not even the counter. *)
Lemma queue_time_updated_other_source (self : MassPlayer) (event : MassEvent) :
  object_id event <> active_source (player self) ->
  queue_time_updated event self = mkRun self [] (Ok tt).
Proof.
  intros Hne. unfold queue_time_updated. unfold_monad.
  apply String.eqb_neq in Hne. rewrite Hne. reflexivity.
Qed.

(* ===================================================================== *)
(** ** Command forwarding *)
(* ===================================================================== *)

(** C3.  Each of play, pause, stop, next, previous, seek, shuffle-set,
    repeat-set and clear-playlist sends exactly one command and leaves
    the entity as it is: with an active queue the command is addressed to
    that queue's id, without one the same command is addressed to the
    player's own id.  (Seek sends [int(position)]; repeat-set sends the
    parsed mode.) *)
Theorem C3_command_targeting (self : MassPlayer) :
  (forall q : PlayerQueue,
      get_player_queue (mass self) (active_source (player self)) = Some q ->
      forwards_to self (queue_id q))
  /\ (get_player_queue (mass self) (active_source (player self)) = None ->
      forwards_to self (player_id self)).
Proof.
  split; [intros q Hq|intros Hq]; unfold forwards_to;
    repeat split; intros;
    unfold async_media_play, async_media_pause, async_media_stop,
      async_media_next_track, async_media_previous_track, async_media_seek,
      async_set_shuffle, async_set_repeat, async_clear_playlist;
    unfold_monad; run_method; reflexivity.
Qed.

Lemma C3_command_targeting_witness :
  async_media_play Demo.kiss_entity
  = mkRun Demo.kiss_entity [queue_command_play "queue2"] (Ok tt)
  /\ async_media_play Demo.linein_entity
     = mkRun Demo.linein_entity [queue_command_play "player1"] (Ok tt)
  /\ async_clear_playlist Demo.kiss_entity
     = mkRun Demo.kiss_entity [queue_command_clear "queue2"] (Ok tt)
  /\ async_clear_playlist Demo.linein_entity
     = mkRun Demo.linein_entity [queue_command_clear "player1"] (Ok tt).
Proof.
  destruct (C3_command_targeting Demo.kiss_entity) as [Hqueue _].
  destruct (C3_command_targeting Demo.linein_entity) as [_ Hplayer].
  specialize (Hqueue Demo.kiss_queue eq_refl).
  specialize (Hplayer eq_refl).
  unfold forwards_to in Hqueue, Hplayer.
  split; [apply Hqueue|].
  split; [apply Hplayer|].
  split; [apply Hqueue|apply Hplayer].
Defined.

(** Power and volume commands go to the player's own id, whatever the
    queue. *)
Lemma player_scoped_commands (self : MassPlayer) (mute : bool) :
  async_mute_volume mute self
  = mkRun self [player_command_volume_mute (player_id self) mute] (Ok tt)
  /\ async_volume_up self = mkRun self [player_command_volume_up (player_id self)] (Ok tt)
  /\ async_volume_down self = mkRun self [player_command_volume_down (player_id self)] (Ok tt)
  /\ async_turn_on self = mkRun self [player_command_power (player_id self) true] (Ok tt)
  /\ async_turn_off self = mkRun self [player_command_power (player_id self) false] (Ok tt).
Proof. repeat split. Qed.

(** An unrecognised repeat string raises and sends nothing. *)
Lemma async_set_repeat_invalid (self : MassPlayer) (repeat : string) :
  RepeatMode_of repeat = Raised ValueError ->
  async_set_repeat repeat self = mkRun self [] (Raised ValueError).
Proof.
  intros Hr. unfold async_set_repeat. unfold_monad. cbn.
  destruct (get_player_queue (mass self) (active_source (player self)));
    rewrite Hr; reflexivity.
Qed.

(* ===================================================================== *)
(** ** Media resolution *)
(* ===================================================================== *)

(** *** Python string facts *)

Lemma prefix_drop (p s : string) :
  String.prefix p s = true -> s = p ++ PyStr.drop (String.length p) s.
Proof.
  revert s. induction p as [|c p IH]; intros s H.
  - reflexivity.
  - destruct s as [|d s]; cbn in H; [discriminate H|].
    destruct (Ascii.ascii_dec c d) as [->|]; [|discriminate H].
    cbn. f_equal. apply IH, H.
Qed.

Lemma contains_eq (sep s : string) :
  PyStr.contains sep s =
  if String.prefix sep s then true
  else match s with
       | EmptyString => false
       | String _ t => PyStr.contains sep t
       end.
Proof. destruct s; reflexivity. Qed.

Lemma split_once_eq (sep s : string) :
  PyStr.split_once sep s =
  if String.prefix sep s then Some (EmptyString, PyStr.drop (String.length sep) s)
  else match s with
       | EmptyString => None
       | String c t =>
           match PyStr.split_once sep t with
           | Some (a, b) => Some (String c a, b)
           | None => None
           end
       end.
Proof. destruct s; reflexivity. Qed.

(** [sep in s] holds exactly when [s.split(sep, 1)] has two parts. *)
Lemma contains_split_once (sep s : string) :
  PyStr.contains sep s = true ->
  exists a b, PyStr.split_once sep s = Some (a, b).
Proof.
  induction s as [|c s IH]; rewrite contains_eq, split_once_eq;
    destruct (String.prefix sep _); intros H; eauto; try discriminate H.
  destruct (IH H) as (a & b & ->). eauto.
Qed.

(** The two parts of [s.split(sep, 1)] surround the separator. *)
Lemma split_once_spec (sep s a b : string) :
  PyStr.split_once sep s = Some (a, b) -> s = a ++ sep ++ b.
Proof.
  revert a b. induction s as [|c s IH]; intros a b; rewrite split_once_eq;
    destruct (String.prefix sep _) eqn:Hp; intros H; try discriminate H.
  - injection H as <- <-. apply (prefix_drop _ _ Hp).
  - injection H as <- <-. apply (prefix_drop _ _ Hp).
  - destruct (PyStr.split_once sep s) as [[a' b']|]; [|discriminate H].
    injection H as <- <-. cbn. f_equal. apply IH. reflexivity.
Qed.

(** *** The lookups only query *)

Lemma query_ret {A : Type} (a : A) : query (ret a).
Proof. intros self. cbn. eauto. Qed.

Lemma query_get_self : query get_self.
Proof. intros self. cbn. eauto. Qed.

Lemma query_bind {A B : Type} (m : M A) (f : A -> M B) :
  query m -> (forall a, query (f a)) -> query (bind m f).
Proof.
  intros Hm Hf self. unfold bind.
  destruct (Hm self) as (Hfin & Htr & a & Hres).
  destruct (m self) as [s1 t1 o1]. cbn in *. subst.
  destruct (Hf a self) as (Hfin' & Htr' & b & Hres').
  destruct (f a self) as [s2 t2 o2]. cbn in *. subst.
  repeat split; eauto. rewrite forallb_app, Htr, Htr'. reflexivity.
Qed.

Lemma query_call_library (func : LibraryFunction) (s : string) :
  query (call_library func s).
Proof. intros self. cbn. eauto. Qed.

Lemma query_call_get_item (mtype item_id provider : string) :
  query (call_get_item mtype item_id provider).
Proof. intros self. cbn. eauto. Qed.

Lemma query_call_search (name : string) (types : list string) :
  query (call_search name types).
Proof. intros self. cbn. eauto. Qed.

Create HintDb query.
#[local] Hint Resolve query_ret query_get_self query_call_library
  query_call_get_item query_call_search : query.

Lemma query_lookup_by_artist_split (func : LibraryFunction) (s : string)
    (splitters : list string) :
  query (lookup_by_artist_split func s splitters).
Proof.
  induction splitters as [|splitter rest IH]; cbn [lookup_by_artist_split].
  - auto with query.
  - destruct (PyStr.contains splitter s) eqn:Hc; [|exact IH].
    destruct (contains_split_once _ _ Hc) as (a & b & ->).
    apply query_bind; [auto with query|]. intros items.
    destruct (find _ items); auto with query.
Qed.

Lemma query_lookup_in_library (funcs : list LibraryFunction) (s : string) :
  query (lookup_in_library funcs s).
Proof.
  induction funcs as [|func rest IH]; cbn [lookup_in_library].
  - auto with query.
  - apply query_bind; [auto with query|]. intros items.
    destruct (find _ items); [auto with query|].
    apply query_bind.
    + destruct (is_tracks_or_albums func);
        [apply query_lookup_by_artist_split|auto with query].
    + intros [item|]; auto with query.
Qed.

Lemma query_get_item_by_name (name : string) (media_type_ : option string) :
  query (_get_item_by_name name media_type_).
Proof.
  unfold _get_item_by_name.
  match goal with |- context [let '(a, b) := ?p in _] => destruct p as [mt sn] end.
  apply query_bind; [apply query_lookup_in_library|].
  intros [item|]; [auto with query|].
  apply query_bind; auto with query.
Qed.

Lemma query_resolve_media_id (media_type_ : option string) (media_id_str : string) :
  query (resolve_media_id media_type_ media_id_str).
Proof.
  unfold resolve_media_id.
  destruct (PyStr.contains "://" media_id_str); [auto with query|].
  apply query_bind.
  - destruct (hint_truthy media_type_ && PyStr.isnumeric media_id_str)%bool;
      auto with query.
  - intros [item|]; [auto with query|].
    apply query_bind; [apply query_get_item_by_name|].
    intros [item|]; auto with query.
Qed.

(** A query run, spelled out. *)
Lemma query_run {A : Type} (m : M A) (self : MassPlayer) :
  query m ->
  exists calls a,
    m self = mkRun self calls (Ok a) /\ forallb is_query calls = true.
Proof.
  intros Hm. destruct (Hm self) as (Hfin & Htr & a & Hres).
  destruct (m self) as [s t o]. cbn in *. subst. eauto.
Qed.

Lemma is_query_not_play_media (calls : list Effect) :
  forallb is_query calls = true -> existsb is_play_media calls = false.
Proof.
  induction calls as [|c calls IH]; cbn; [reflexivity|].
  intros H. apply andb_prop in H as [Hc Hrest].
  rewrite (IH Hrest). destruct c; try discriminate Hc; reflexivity.
Qed.

(** The loop over [media_id] appends, in order, the URI of every
    identifier that resolves, and nothing for the others. *)
Lemma resolve_media_ids_run (self : MassPlayer) (media_type_ : option string)
    (media_id uris : list string) :
  exists calls,
    resolve_media_ids media_type_ media_id uris self
    = mkRun self calls (Ok (uris ++ resolved_uris self media_type_ media_id)%list)
    /\ forallb is_query calls = true.
Proof.
  revert uris. induction media_id as [|media_id_str rest IH]; intros uris.
  - exists []. cbn. rewrite app_nil_r. auto.
  - cbn [resolve_media_ids resolved_uris flat_map]. unfold resolved, bind.
    destruct (query_run _ self (query_resolve_media_id media_type_ media_id_str))
      as (calls1 & uri & -> & Hq1).
    cbn [result].
    destruct uri as [u|].
    + destruct (IH (uris ++ [u])%list) as (calls2 & -> & Hq2).
      exists (calls1 ++ calls2)%list. rewrite <- app_assoc. cbn.
      rewrite forallb_app, Hq1, Hq2. auto.
    + destruct (IH uris) as (calls2 & -> & Hq2).
      exists (calls1 ++ calls2)%list. cbn.
      rewrite forallb_app, Hq1, Hq2. auto.
Qed.

(** The whole play request: lookups, then at most one [play_media]. *)
Lemma play_media_advanced_run (self : MassPlayer) (media_id : list string)
    (enqueue : option QueueOption) (announce radio_mode : option bool)
    (media_type_ : option string) :
  exists calls,
    forallb is_query calls = true
    /\ _async_play_media_advanced media_id enqueue announce radio_mode media_type_ self
       = match resolved_uris self media_type_ media_id with
         | [] => mkRun self calls (Ok tt)
         | uris =>
             mkRun self
               (calls ++
                [play_media
                   match get_player_queue (mass self) (active_source (player self)) with
                   | Some queue => queue_id queue
                   | None => player_id self
                   end uris enqueue radio_mode])
               (Ok tt)
         end.
Proof.
  destruct (resolve_media_ids_run self media_type_ media_id []) as (calls & Hrun & Hq).
  exists calls. split; [exact Hq|].
  unfold _async_play_media_advanced, bind. rewrite Hrun. cbn [app].
  destruct (resolved_uris self media_type_ media_id); cbn.
  - rewrite app_nil_r. reflexivity.
  - reflexivity.
Qed.

(** C7.  A play request never raises on an identifier that does not
    resolve: the request returns, and the media list handed to
    [play_media] is made of the URIs of the identifiers that resolve, the
    others being dropped.  When no identifier resolves the list is empty
    and no [play_media] call is sent (only the lookups were). *)
Theorem C7_unresolved_ids_dropped (self : MassPlayer) (media_id : list string)
    (enqueue : option QueueOption) (announce radio_mode : option bool)
    (media_type_ : option string) :
  let r := _async_play_media_advanced media_id enqueue announce radio_mode
             media_type_ self in
  result r = Ok tt
  /\ final r = self
  /\ (forall target media opt radio,
         In (play_media target media opt radio) (trace r) ->
         media = resolved_uris self media_type_ media_id /\ media <> [])
  /\ (forall uri, In uri (resolved_uris self media_type_ media_id) <->
                  exists media_id_str,
                    In media_id_str media_id
                    /\ resolved self media_type_ media_id_str = Some uri)
  /\ ((forall media_id_str, In media_id_str media_id ->
                            resolved self media_type_ media_id_str = None) ->
      resolved_uris self media_type_ media_id = []
      /\ existsb is_play_media (trace r) = false).
Proof.
  intros r. subst r.
  destruct (play_media_advanced_run self media_id enqueue announce radio_mode
              media_type_) as (calls & Hq & Hrun).
  assert (Hnone : forall target media opt radio,
             ~ In (play_media target media opt radio) calls).
  { intros target media opt radio Hin.
    rewrite forallb_forall in Hq. specialize (Hq _ Hin). discriminate Hq. }
  assert (Hin_uris : forall uri,
             In uri (resolved_uris self media_type_ media_id) <->
             exists media_id_str,
               In media_id_str media_id
               /\ resolved self media_type_ media_id_str = Some uri).
  { intros uri. unfold resolved_uris. rewrite in_flat_map.
    split; intros (s & Hs & Hu); exists s; split; auto.
    - destruct (resolved self media_type_ s) as [u|]; cbn in Hu; [|contradiction].
      destruct Hu as [->|[]]. reflexivity.
    - rewrite Hu. left. reflexivity. }
  rewrite Hrun.
  destruct (resolved_uris self media_type_ media_id) as [|u uris] eqn:Huris;
    cbn [result final trace].
  - split; [reflexivity|]. split; [reflexivity|].
    split; [intros target media opt radio Hin; destruct (Hnone _ _ _ _ Hin)|].
    split; [exact Hin_uris|].
    intros _. split; [reflexivity|]. apply is_query_not_play_media, Hq.
  - split; [reflexivity|]. split; [reflexivity|].
    split.
    { intros target media opt radio Hin.
      apply in_app_or in Hin as [Hin|[Heq|[]]].
      - destruct (Hnone _ _ _ _ Hin).
      - injection Heq as _ <- _ _. split; [reflexivity|discriminate]. }
    split; [exact Hin_uris|].
    intros Hall. exfalso.
    destruct (proj1 (Hin_uris u) (or_introl eq_refl)) as (s & Hs & Hu).
    rewrite (Hall s Hs) in Hu. discriminate Hu.
Qed.

Lemma C7_unresolved_ids_dropped_witness :
  resolved_uris Demo.radio_entity None ["no such song"; "nothing here"] = []
  /\ existsb is_play_media
       (trace (_async_play_media_advanced ["no such song"; "nothing here"]
                 (Some QueuePLAY) None None None Demo.radio_entity)) = false.
Proof.
  apply (C7_unresolved_ids_dropped Demo.radio_entity ["no such song"; "nothing here"]
           (Some QueuePLAY) None None None).
  intros s [<-|[<-|[]]]; vm_compute; reflexivity.
Defined.

(** A request mixing identifiers that resolve with one that does not:
    the unresolved one is dropped and the rest is played on the queue. *)
Example play_media_partial_failure :
  let r := _async_play_media_advanced ["abc://track/1"; "no such song"; "42"]
             (Some QueuePLAY) None None (Some "track") Demo.radio_entity in
  result r = Ok tt
  /\ filter is_play_media (trace r)
     = [play_media "queue1" ["abc://track/1"; "library://track/42"]
          (Some QueuePLAY) None].
Proof. split; vm_compute; reflexivity. Qed.

(** C8.  One identifier is resolved in this order.  If it contains "://"
    it is taken as it is, with no lookup at all.  Otherwise, if a
    media-type hint is given and the identifier is numeric, the first
    call is the library lookup by id under that type: when it finds the
    item, its URI is the answer and nothing is searched; when the item is
    not found, nothing is raised and the name lookup runs next, its
    answer being the answer.  So "abc://track/1" resolves to itself, and
    "42" with hint [track] resolves through the lookup by id. *)
Theorem C8_resolution_order (self : MassPlayer) (media_type_ : option string)
    (media_id_str : string) :
  (PyStr.contains "://" media_id_str = true ->
   resolve_media_id media_type_ media_id_str self
   = mkRun self [] (Ok (Some media_id_str)))
  /\ (PyStr.contains "://" media_id_str = false ->
      hint_truthy media_type_ = true ->
      PyStr.isnumeric media_id_str = true ->
      let by_id := music_get_item (hint_text media_type_) media_id_str "library" in
      (forall item,
          get_item (mass self) (hint_text media_type_) media_id_str "library"
          = Some item ->
          resolve_media_id media_type_ media_id_str self
          = mkRun self [by_id] (Ok (Some (item_uri item))))
      /\ (get_item (mass self) (hint_text media_type_) media_id_str "library" = None ->
          exists found,
            result (_get_item_by_name media_id_str media_type_ self) = Ok found
            /\ resolve_media_id media_type_ media_id_str self
               = mkRun self
                   (by_id :: trace (_get_item_by_name media_id_str media_type_ self))
                   (Ok (option_map item_uri found))))
  /\ resolve_media_id None "abc://track/1" self
     = mkRun self [] (Ok (Some "abc://track/1")).
Proof.
  split; [|split].
  - intros Huri. unfold resolve_media_id. rewrite Huri. reflexivity.
  - intros Huri Hhint Hnum by_id. subst by_id.
    unfold resolve_media_id, call_get_item. unfold_monad.
    rewrite Huri, Hhint, Hnum. cbn [andb].
    split.
    + intros item Hitem. rewrite Hitem. reflexivity.
    + intros Hitem. rewrite Hitem.
      destruct (query_run _ self (query_get_item_by_name media_id_str media_type_))
        as (calls & found & Hrun & _).
      exists found. rewrite Hrun. cbn.
      split; [reflexivity|]. destruct found; cbn; rewrite app_nil_r; reflexivity.
  - reflexivity.
Qed.

Lemma C8_resolution_order_witness :
  resolve_media_id (Some "track") "42" Demo.radio_entity
  = mkRun Demo.radio_entity [music_get_item "track" "42" "library"]
      (Ok (Some "library://track/42"))
  /\ resolve_media_id (Some "track") "abc://track/1" Demo.radio_entity
     = mkRun Demo.radio_entity [] (Ok (Some "abc://track/1")).
Proof.
  destruct (C8_resolution_order Demo.radio_entity (Some "track") "42")
    as (_ & Hid & _).
  destruct (Hid eq_refl eq_refl eq_refl) as (Hfound & _).
  split.
  - exact (Hfound Demo.kiss eq_refl).
  - exact (proj1 (C8_resolution_order Demo.radio_entity (Some "track") "abc://track/1")
             eq_refl).
Defined.

(** A numeric identifier the library does not know under the hinted
    type: the lookup by id comes first, then the name lookup. *)
Example numeric_id_not_found_falls_through :
  let r := resolve_media_id (Some "track") "43" Demo.radio_entity in
  trace r = [music_get_item "track" "43" "library";
             music_get_library LibTracks "43";
             music_search "43" ["track"]]
  /\ result r = Ok None.
Proof. split; vm_compute; reflexivity. Qed.

(** *** The artist-split lookup *)

Lemma artist_title_match_spec (artistname title : string) (item : MediaItem) :
  artist_title_match artistname title item = true <->
  PyStr.lower (item_name item) = title
  /\ exists artist, In artist (artists item)
                    /\ PyStr.lower (artist_name artist) = artistname.
Proof.
  unfold artist_title_match. rewrite andb_true_iff, String.eqb_eq, existsb_exists.
  split; intros (Hn & a & Hin & Ha); (split; [exact Hn|]); exists a; split; auto.
  - apply String.eqb_eq, Ha.
  - apply String.eqb_eq, Ha.
Qed.

(** One splitter that occurs in the search string: the library is asked
    again for the title part, and the first item matching title and
    artist is returned; otherwise the next splitter is tried. *)
Lemma lookup_by_artist_split_step (self : MassPlayer) (func : LibraryFunction)
    (searchname splitter artistname title : string) (rest : list string) :
  PyStr.contains splitter searchname = true ->
  PyStr.split_once splitter searchname = Some (artistname, title) ->
  lookup_by_artist_split func searchname (splitter :: rest) self
  = match find (artist_title_match artistname title)
            (library_items (mass self) func title) with
    | Some item => mkRun self [music_get_library func title] (Ok (Some item))
    | None =>
        let r := lookup_by_artist_split func searchname rest self in
        mkRun self (music_get_library func title :: trace r) (result r)
    end.
Proof.
  intros Hc Hs. cbn [lookup_by_artist_split]. rewrite Hc, Hs.
  unfold call_library. unfold_monad. cbn.
  destruct (find _ _); [reflexivity|].
  destruct (query_run _ self (query_lookup_by_artist_split func searchname rest))
    as (calls & found & -> & _).
  reflexivity.
Qed.

Lemma lookup_by_artist_split_skip (self : MassPlayer) (func : LibraryFunction)
    (searchname splitter : string) (rest : list string) :
  PyStr.contains splitter searchname = false ->
  lookup_by_artist_split func searchname (splitter :: rest) self
  = lookup_by_artist_split func searchname rest self.
Proof. intros Hc. cbn [lookup_by_artist_split]. rewrite Hc. reflexivity. Qed.

(** Whatever the artist-split lookup returns was found by re-querying
    the library by title, and matches title and artist. *)
Lemma lookup_by_artist_split_sound (self : MassPlayer) (func : LibraryFunction)
    (searchname : string) (splitters : list string) (item : MediaItem) :
  result (lookup_by_artist_split func searchname splitters self) = Ok (Some item) ->
  exists splitter artistname title,
    In splitter splitters
    /\ PyStr.contains splitter searchname = true
    /\ PyStr.split_once splitter searchname = Some (artistname, title)
    /\ In (music_get_library func title)
         (trace (lookup_by_artist_split func searchname splitters self))
    /\ In item (library_items (mass self) func title)
    /\ artist_title_match artistname title item = true.
Proof.
  induction splitters as [|splitter rest IH]; [discriminate|].
  destruct (PyStr.contains splitter searchname) eqn:Hc.
  - destruct (contains_split_once _ _ Hc) as (a & t & Hs).
    rewrite (lookup_by_artist_split_step self func _ _ _ _ rest Hc Hs).
    destruct (find _ _) as [m|] eqn:Hf; cbn [result trace].
    + intros [= <-]. apply find_some in Hf as [Hin Hm].
      exists splitter, a, t.
      repeat (split; [first [left; reflexivity | assumption]|]). exact Hm.
    + intros Hr. destruct (IH Hr) as (sp & a' & t' & Hin & Hc' & Hs' & Htr & Hit & Hm).
      exists sp, a', t'.
      repeat (split; [first [right; assumption | assumption]|]). exact Hm.
  - rewrite (lookup_by_artist_split_skip self func _ _ rest Hc). intros Hr.
    destruct (IH Hr) as (sp & a' & t' & Hin & Hc' & Hs' & Htr & Hit & Hm).
    exists sp, a', t'.
    repeat (split; [first [right; assumption | assumption]|]). exact Hm.
Qed.

(** C9.  The artist-split lookup, which [_get_item_by_name] runs for the
    track and album listings (and only for those) once the exact-name
    pass over a listing found nothing.  When the lowered search string
    contains " - " (tried first) or " by ", it is cut at the first
    occurrence into an artist part and a title part and the listing is
    queried again with the title.  An item comes back only if its
    lowered name equals the title and the lowered name of one of its
    artists equals the artist part.  With the demo library,
    "prince - purple rain" without a hint resolves to the track
    "purple rain" by "prince" this way. *)
Theorem C9_artist_split_lookup (self : MassPlayer) (func : LibraryFunction)
    (searchname : string) :
  let split_lookup := lookup_by_artist_split func searchname [" - "; " by "] in
  (forall item,
      result (split_lookup self) = Ok (Some item) ->
      exists splitter artistname title,
        (splitter = " - " \/ splitter = " by ")
        /\ PyStr.contains splitter searchname = true
        /\ searchname = artistname ++ splitter ++ title
        /\ In (music_get_library func title) (trace (split_lookup self))
        /\ In item (library_items (mass self) func title)
        /\ PyStr.lower (item_name item) = title
        /\ exists artist, In artist (artists item)
                          /\ PyStr.lower (artist_name artist) = artistname)
  /\ (forall splitter, splitter = " - " \/
                       (splitter = " by " /\ PyStr.contains " - " searchname = false) ->
        PyStr.contains splitter searchname = true ->
        exists artistname title,
          PyStr.split_once splitter searchname = Some (artistname, title)
          /\ hd_error (trace (split_lookup self)) = Some (music_get_library func title)
          /\ forall item,
               find (artist_title_match artistname title)
                 (library_items (mass self) func title) = Some item ->
               result (split_lookup self) = Ok (Some item))
  /\ (find (fun item => String.eqb searchname (PyStr.lower (item_name item)))
        (library_items (mass self) func searchname) = None ->
      result (lookup_in_library [func] searchname self)
      = if is_tracks_or_albums func then result (split_lookup self) else Ok None)
  /\ (let r := _get_item_by_name "prince - purple rain" None Demo.radio_entity in
      result r = Ok (Some Demo.purple_rain)
      /\ trace r = [music_get_library LibPlaylists "prince - purple rain";
                    music_get_library LibRadios "prince - purple rain";
                    music_get_library LibAlbums "prince - purple rain";
                    music_get_library LibAlbums "purple rain";
                    music_get_library LibTracks "prince - purple rain";
                    music_get_library LibTracks "purple rain"]).
Proof.
  intros split_lookup. subst split_lookup.
  split; [|split; [|split]].
  - intros item Hr.
    destruct (lookup_by_artist_split_sound self func searchname _ item Hr)
      as (sp & a & t & Hin & Hc & Hs & Htr & Hit & Hm).
    apply artist_title_match_spec in Hm as (Hname & Hartist).
    exists sp, a, t. repeat split; auto.
    + destruct Hin as [<-|[<-|[]]]; auto.
    + apply split_once_spec, Hs.
  - intros splitter Hsp Hc.
    destruct (contains_split_once _ _ Hc) as (a & t & Hs).
    exists a, t. split; [exact Hs|].
    destruct Hsp as [->|[-> Hno]].
    + rewrite (lookup_by_artist_split_step self func _ _ _ _ _ Hc Hs).
      destruct (find _ _) as [m|]; cbn; split; auto; intros item [=]; congruence.
    + rewrite (lookup_by_artist_split_skip self func _ _ _ Hno).
      rewrite (lookup_by_artist_split_step self func _ _ _ _ _ Hc Hs).
      destruct (find _ _) as [m|]; cbn; split; auto; intros item [=]; congruence.
  - intros Hexact.
    destruct (query_run _ self
                (query_lookup_by_artist_split func searchname [" - "; " by "]))
      as (calls & found & Hrun & _).
    cbv beta iota delta [lookup_in_library call_library bind get_self emit ret].
    rewrite Hexact.
    destruct (is_tracks_or_albums func); [|reflexivity].
    rewrite Hrun. destruct found; reflexivity.
  - split; vm_compute; reflexivity.
Qed.

Lemma C9_artist_split_lookup_witness :
  exists splitter artistname title,
    (splitter = " - " \/ splitter = " by ")
    /\ PyStr.contains splitter "prince - purple rain" = true
    /\ "prince - purple rain" = artistname ++ splitter ++ title
    /\ PyStr.lower (item_name Demo.purple_rain) = title
    /\ exists artist, In artist (artists Demo.purple_rain)
                      /\ PyStr.lower (artist_name artist) = artistname.
Proof.
  destruct (proj1 (C9_artist_split_lookup Demo.radio_entity LibTracks
                     "prince - purple rain") Demo.purple_rain eq_refl)
    as (sp & a & t & Hsp & Hc & Hs & _ & _ & Hn & Ha).
  exists sp, a, t. auto.
Defined.

(** The comparison is made on lowered names, so capitals in the library
    do not matter: "Prince - Kiss" finds the track "Kiss" by "Prince". *)
Example artist_split_ignores_case :
  result (_get_item_by_name "Prince - Kiss" (Some "track") Demo.radio_entity)
  = Ok (Some Demo.kiss).
Proof. vm_compute. reflexivity. Qed.

(** A type keyword in a hint-less search string becomes the type of the
    fallback search and is removed from the string. *)
Example voice_command_keyword :
  trace (_get_item_by_name "track nothing" None Demo.radio_entity)
  = [music_get_library LibPlaylists "nothing";
     music_get_library LibRadios "nothing";
     music_get_library LibAlbums "nothing";
     music_get_library LibTracks "nothing";
     music_get_library LibArtists "nothing";
     music_search "nothing" ["track"]].
Proof. vm_compute. reflexivity. Qed.

(** C10.  The [announce] argument is not used: two play requests that
    differ only in it run identically (same lookups, same [play_media]
    call with the same target, media, enqueue option and radio mode,
    same outcome). *)
Theorem C10_announce_has_no_effect (self : MassPlayer) (media_id : list string)
    (enqueue : option QueueOption) (announce1 announce2 radio_mode : option bool)
    (media_type_ : option string) :
  _async_play_media_advanced media_id enqueue announce1 radio_mode media_type_ self
  = _async_play_media_advanced media_id enqueue announce2 radio_mode media_type_ self.
Proof. reflexivity. Qed.

(* ===================================================================== *)
(** ** Volume scaling *)
(* ===================================================================== *)

(** *** Binary64 rounding of a small product *)

Lemma digits2_pos_lt (m : positive) :
  Zpos m < 2 ^ Zpos (digits2_pos m).
Proof.
  induction m as [m IH|m IH|]; cbn [digits2_pos];
    rewrite ?Pos2Z.inj_succ, ?Z.pow_succ_r by lia; lia.
Qed.

Lemma digits2_pos_le (m : positive) (k : Z) :
  0 <= k -> Zpos m < 2 ^ k -> Zpos (digits2_pos m) <= k.
Proof.
  revert k. induction m as [m IH|m IH|]; intros k Hk H; cbn [digits2_pos];
    rewrite ?Pos2Z.inj_succ;
    (assert (k <> 0) by (intros ->; cbn in H; lia));
    try (replace k with (Z.succ (k - 1)) in H by lia;
         rewrite Z.pow_succ_r in H by lia;
         specialize (IH (k - 1) ltac:(lia) ltac:(lia)));
    lia.
Qed.

Lemma Zdigits2_le (m k : Z) :
  0 <= m < 2 ^ k -> 0 <= k -> Zdigits2 m <= k.
Proof.
  intros [Hm Hlt] Hk. destruct m as [|p|p]; cbn [Zdigits2]; try lia.
  apply digits2_pos_le; assumption.
Qed.

Lemma shr_1_m (mrs : shr_record) :
  0 <= shr_m mrs -> 0 <= shr_m (shr_1 mrs) <= shr_m mrs.
Proof.
  destruct mrs as [m r s]. destruct m as [|[p|p|]|p]; cbn; lia.
Qed.

Lemma iter_shr_1_m (p : positive) (mrs : shr_record) :
  0 <= shr_m mrs -> 0 <= shr_m (iter_pos shr_1 p mrs) <= shr_m mrs.
Proof.
  revert mrs. induction p as [p IH|p IH|]; intros mrs H; cbn [iter_pos].
  - pose proof (shr_1_m mrs H) as H1.
    pose proof (IH _ (proj1 H1)) as H2.
    pose proof (IH _ (proj1 H2)) as H3. lia.
  - pose proof (IH _ H) as H2.
    pose proof (IH _ (proj1 H2)) as H3. lia.
  - apply shr_1_m, H.
Qed.

(** Shifting to the target exponent keeps a mantissa non-negative, does
    not enlarge it, and ends at the larger of the two exponents. *)
Lemma shr_fexp_bounds (m e : Z) (l : location) :
  0 <= m ->
  let '(mrs, e') := shr_fexp PyNum.prec PyNum.emax m e l in
  0 <= shr_m mrs <= m
  /\ e' <= Z.max e (fexp PyNum.prec PyNum.emax (Zdigits2 m + e)).
Proof.
  intros Hm. unfold shr_fexp, shr.
  assert (Hrec : shr_m (shr_record_of_loc m l) = m)
    by (destruct l as [|[]]; reflexivity).
  set (target := fexp PyNum.prec PyNum.emax (Zdigits2 m + e)).
  destruct (target - e) as [|p|p] eqn:Hn.
  - rewrite Hrec. lia.
  - pose proof (iter_shr_1_m p (shr_record_of_loc m l)) as Hit.
    rewrite Hrec in Hit. specialize (Hit Hm). lia.
  - rewrite Hrec. lia.
Qed.

Lemma round_nearest_even_bounds (m : Z) (l : location) :
  m <= round_nearest_even m l <= m + 1.
Proof.
  destruct l as [|[]]; cbn; try lia. destruct (Z.even m); lia.
Qed.

(** A positive product below [2^106] with an exponent of at most [-98]
    rounds to a finite, non-negative binary64 number. *)
Lemma binary_round_aux_small (mx : positive) (ex : Z) :
  Zpos mx < 2 ^ 106 -> ex <= -98 ->
  let r := binary_round_aux PyNum.prec PyNum.emax false (Zpos mx) ex loc_Exact in
  r = S754_zero false \/ exists m e, r = S754_finite false m e.
Proof.
  intros Hmx Hex r. subst r. unfold binary_round_aux.
  pose proof (shr_fexp_bounds (Zpos mx) ex loc_Exact ltac:(lia)) as H1.
  destruct (shr_fexp PyNum.prec PyNum.emax (Zpos mx) ex loc_Exact) as [mrs1 e1].
  destruct H1 as [Hm1 He1].
  pose proof (round_nearest_even_bounds (shr_m mrs1) (loc_of_shr_record mrs1)) as Hr.
  set (m2 := round_nearest_even (shr_m mrs1) (loc_of_shr_record mrs1)) in *.
  pose proof (shr_fexp_bounds m2 e1 loc_Exact ltac:(lia)) as H2.
  destruct (shr_fexp PyNum.prec PyNum.emax m2 e1 loc_Exact) as [mrs2 e2].
  destruct H2 as [Hm2 He2].
  assert (Hd1 : Zdigits2 (Zpos mx) <= 106) by (apply Zdigits2_le; lia).
  assert (Hd2 : Zdigits2 m2 <= 107).
  { apply Zdigits2_le; [|lia]. change (2 ^ 107) with (2 * 2 ^ 106). lia. }
  unfold fexp, emin, PyNum.prec, PyNum.emax in *.
  destruct (shr_m mrs2) as [|m3|m3]; [left; reflexivity| |lia].
  right. exists m3, e2.
  replace (e2 <=? 1024 - 53) with true; [reflexivity|].
  symmetry. apply Z.leb_le. lia.
Qed.

Lemma of_int_0 : PyNum.of_int 0 = S754_zero false.
Proof. reflexivity. Qed.

Lemma of_int_1 : PyNum.of_int 1 = S754_finite false 4503599627370496 (-52).
Proof. vm_compute. reflexivity. Qed.

Lemma of_int_100 : PyNum.of_int 100 = S754_finite false 7036874417766400 (-46).
Proof. vm_compute. reflexivity. Qed.

(** A valid float in [[0, 1]] times [100.0] is a zero or a positive
    finite float: the product neither overflows nor is [nan]. *)
Lemma fmul_100_unit_interval (v : PyNum.float) :
  valid_binary PyNum.prec PyNum.emax v = true ->
  PyNum.fleb (PyNum.of_int 0) v = true ->
  PyNum.fleb v (PyNum.of_int 1) = true ->
  let p := PyNum.fmul v (PyNum.of_int 100) in
  (exists s, p = S754_zero s) \/ (exists m e, p = S754_finite false m e).
Proof.
  rewrite of_int_0, of_int_1, of_int_100.
  intros Hvalid Hlo Hhi p. subst p.
  destruct v as [s|s| |s m e]; try discriminate Hhi.
  - left. exists (xorb s false). reflexivity.
  - destruct s; [discriminate Hlo|]. discriminate Hhi.
  - destruct s; [discriminate Hlo|].
    assert (He : e <= -52).
    { unfold PyNum.fleb, SFleb, SFcompare in Hhi.
      destruct (e ?= -52) eqn:Hcmp; try discriminate Hhi.
      - apply Z.compare_eq in Hcmp. lia.
      - assert (e < -52) by exact Hcmp. lia. }
    assert (Hm : Zpos m < 2 ^ 53).
    { cbn [valid_binary] in Hvalid. unfold bounded, canonical_mantissa in Hvalid.
      apply andb_prop in Hvalid as [Hcanon _]. apply Z.eqb_eq in Hcanon.
      unfold fexp, emin, PyNum.prec, PyNum.emax in Hcanon.
      pose proof (digits2_pos_lt m) as Hlt.
      assert (Zpos (digits2_pos m) <= 53) as Hd by lia.
      eapply Z.lt_le_trans; [exact Hlt|].
      apply Z.pow_le_mono_r; lia. }
    assert (Hprod : Zpos (m * 7036874417766400) < 2 ^ 106).
    { rewrite Pos2Z.inj_mul.
      change (2 ^ 106) with (2 ^ 53 * 2 ^ 53).
      apply Z.mul_lt_mono_nonneg; lia. }
    destruct (binary_round_aux_small (m * 7036874417766400) (e + -46) Hprod
                ltac:(lia)) as [H0|(m' & e' & Hf)].
    + left. exists false. exact H0.
    + right. exists m', e'. exact Hf.
Qed.

(** On zeros and positive finite floats [int(x)] is the floor of the
    number [x] stands for. *)
Lemma to_int_floor (x : PyNum.float) :
  (exists s, x = S754_zero s) \/ (exists m e, x = S754_finite false m e) ->
  PyNum.to_int x = Ok (Qfloor (PyNum.to_Q x)) /\ 0 <= Qfloor (PyNum.to_Q x).
Proof.
  intros [(s & ->)|(m & e & ->)]; [split; [reflexivity|cbn; lia]|].
  cbn [PyNum.to_int PyNum.to_Q cond_Zopp].
  destruct e as [|p|p].
  - rewrite Qfloor_Z. cbn. split; [f_equal; lia|lia].
  - rewrite Qfloor_Z, Z.shiftl_mul_pow2 by lia. split; [reflexivity|].
    apply Z.mul_nonneg_nonneg; [lia|]. apply Z.pow_nonneg. lia.
  - change (Z.shiftl (Zpos m) (Zneg p)) with (Z.shiftr (Zpos m) (Zpos p)).
    rewrite Z.shiftr_div_pow2 by lia.
    unfold Qfloor. rewrite Pos2Z.inj_pow. split; [reflexivity|].
    apply Z.div_pos; [lia|]. apply Z.pow_pos_nonneg; lia.
Qed.

(** The projection of each engine volume 0..100 is the binary64 quotient
    [g / 100], within [2^-54] of the exact [g/100]. *)
Lemma volume_levels_accurate :
  forallb volume_level_accurate (map Z.of_nat (seq 0 101)) = true.
Proof. vm_compute. reflexivity. Qed.

(** C5.  Setting the platform volume to a float [v] with [0 <= v <= 1]
    sends [player_command_volume_set] to the player with the integer
    [floor(v * 100)], the product being the float product the code
    computes.  A refresh of a player whose engine volume is an integer
    [g] with [0 <= g <= 100] projects the volume level [g / 100], the
    float quotient, which is within [2^-54] of the exact [g/100]. *)
Theorem C5_volume_scaling (self : MassPlayer) :
  (forall v : PyNum.float,
      valid_binary PyNum.prec PyNum.emax v = true ->
      PyNum.fleb (PyNum.of_int 0) v = true ->
      PyNum.fleb v (PyNum.of_int 1) = true ->
      let volume := Qfloor (PyNum.to_Q (PyNum.fmul v (PyNum.of_int 100))) in
      0 <= volume
      /\ async_set_volume_level v self
         = mkRun self [player_command_volume_set (player_id self) volume] (Ok tt))
  /\ (forall g : Z,
         available self = true ->
         volume_level (player self) = g ->
         0 <= g <= 100 ->
         let level := PyNum.fdiv (PyNum.of_int g) (PyNum.of_int 100) in
         _attr_volume_level (final (async_on_update self)) = Some level
         /\ (Qabs (PyNum.to_Q level - (g # 100)) <= 1 # 2 ^ 54)%Q).
Proof.
  split.
  - intros v Hvalid Hlo Hhi volume. subst volume.
    destruct (to_int_floor _ (fmul_100_unit_interval v Hvalid Hlo Hhi)) as [Hint Hpos].
    split; [exact Hpos|].
    unfold async_set_volume_level. unfold_monad. rewrite Hint. reflexivity.
  - intros g Ha Hg Hrange level. subst level. split.
    + destruct (get_player_queue (mass self) (active_source (player self)))
        as [q|] eqn:Hq;
        [destruct (current_item q) as [cur|] eqn:Hc; [destruct (qi_image cur) eqn:Hi|]|];
        (destruct (powered (player self)) eqn:Hp;
         [destruct (state (player self)) eqn:Hs|]);
        run_on_update; reflexivity.
    + pose proof volume_levels_accurate as Hall.
      rewrite forallb_forall in Hall.
      specialize (Hall g). unfold volume_level_accurate in Hall.
      apply Qle_bool_iff, Hall.
      apply in_map_iff. exists (Z.to_nat g). split; [lia|].
      apply in_seq. lia.
Qed.

Lemma C5_volume_scaling_witness :
  async_set_volume_level (PyNum.fdiv (PyNum.of_int 29) (PyNum.of_int 100))
    Demo.radio_entity
  = mkRun Demo.radio_entity [player_command_volume_set "player1" 28] (Ok tt)
  /\ _attr_volume_level (final (async_on_update Demo.radio_entity))
     = Some (PyNum.fdiv (PyNum.of_int 29) (PyNum.of_int 100)).
Proof.
  destruct (C5_volume_scaling Demo.radio_entity) as [Hset Hget].
  split.
  - exact (proj2 (Hset (PyNum.fdiv (PyNum.of_int 29) (PyNum.of_int 100))
                    eq_refl eq_refl eq_refl)).
  - refine (proj1 (Hget 29 eq_refl eq_refl _)). lia.
Defined.

(** Truncation, not rounding: 0.29 is a float just below 29/100, and
    0.999 scales to 99. *)
Example set_volume_truncates :
  let v999 := PyNum.fdiv (PyNum.of_int 999) (PyNum.of_int 1000) in
  trace (async_set_volume_level v999 Demo.radio_entity)
  = [player_command_volume_set "player1" 99]
  /\ trace (async_set_volume_level (PyNum.of_int 1) Demo.radio_entity)
     = [player_command_volume_set "player1" 100]
  /\ trace (async_set_volume_level (S754_zero true) Demo.radio_entity)
     = [player_command_volume_set "player1" 0].
Proof. repeat split; vm_compute; reflexivity. Qed.

(** The floor is that of the float product, which is itself rounded:
    the float nearest 0.3 lies below 3/10, its exact hundredfold lies
    below 30, and yet the float product is 30.0 and 30 is sent. *)
Example set_volume_float_product :
  let v := PyNum.fdiv (PyNum.of_int 3) (PyNum.of_int 10) in
  (PyNum.to_Q v < 3 # 10)%Q
  /\ Qfloor (PyNum.to_Q v * 100) = 29
  /\ PyNum.to_Q (PyNum.fmul v (PyNum.of_int 100)) == 30
  /\ trace (async_set_volume_level v Demo.radio_entity)
     = [player_command_volume_set "player1" 30].
Proof. repeat split; vm_compute; reflexivity. Qed.

(** Outside the contract: [nan] and the infinities make [int] raise. *)
Example set_volume_nan_raises :
  async_set_volume_level S754_nan Demo.radio_entity
  = mkRun Demo.radio_entity [] (Raised ValueError).
Proof. reflexivity. Qed.

(* ===================================================================== *)
(** ** Further properties of the state projection *)
(* ===================================================================== *)

(** Case analysis on what a refresh reads. *)
Ltac refresh_cases self :=
  destruct (available self) eqn:?;
  [destruct (powered (player self)) eqn:?; [destruct (state (player self)) eqn:?|];
   (destruct (get_player_queue (mass self) (active_source (player self)))
      as [?q|] eqn:?;
    [match goal with
     | q0 : PlayerQueue |- _ =>
         destruct (current_item q0) as [?cur|] eqn:?;
         [match goal with
          | c0 : QueueItem |- _ => destruct (qi_image c0) eqn:?
          end|]
     end|])|].

(** What a refresh never writes. *)
Lemma async_on_update_frame (self : MassPlayer) :
  mass (final (async_on_update self)) = mass self
  /\ player_id (final (async_on_update self)) = player_id self
  /\ player (final (async_on_update self)) = player self
  /\ available (final (async_on_update self)) = available self.
Proof.
  refresh_cases self; run_on_update; repeat split; try reflexivity; congruence.
Qed.

(** A refresh sends nothing out. *)
Lemma async_on_update_silent (self : MassPlayer) :
  trace (async_on_update self) = [].
Proof. refresh_cases self; run_on_update; reflexivity. Qed.

(** X1.  A refresh, whether it returns or raises, sends nothing out and
    never touches the entity's link to the engine: client, player id,
    mirrored player and availability are as before. *)
Theorem refresh_is_local (self : MassPlayer) :
  let r := async_on_update self in
  trace r = []
  /\ mass (final r) = mass self
  /\ player_id (final r) = player_id self
  /\ player (final r) = player self
  /\ available (final r) = available self.
Proof.
  split; [apply async_on_update_silent|apply async_on_update_frame].
Qed.

(** X2.  Queue-dependent attributes of an available entity.  With an
    active queue: shuffle and repeat are the queue's, the app id is the
    integration's domain, position and timestamp are the queue's.
    Without one: shuffle and repeat are unset, the app id is the raw
    active source and the position is the player's; these are written
    although the refresh then raises.  Group members and mute are the
    player's in both cases. *)
Theorem refresh_queue_attributes (self : MassPlayer) :
  available self = true ->
  let self' := final (async_on_update self) in
  (forall q,
      get_player_queue (mass self) (active_source (player self)) = Some q ->
      _attr_shuffle self' = Some (shuffle_enabled q)
      /\ _attr_repeat self' = Some (RepeatMode_value (repeat_mode q))
      /\ _attr_app_id self' = Some DOMAIN
      /\ _attr_media_position self' = Some (queue_elapsed_time q)
      /\ _attr_media_position_updated_at self'
         = Some (from_utc_timestamp (queue_elapsed_time_last_updated q)))
  /\ (get_player_queue (mass self) (active_source (player self)) = None ->
      _attr_shuffle self' = None
      /\ _attr_repeat self' = None
      /\ _attr_app_id self' = Some (active_source (player self))
      /\ _attr_media_position self' = Some (elapsed_time (player self))
      /\ _attr_media_position_updated_at self'
         = Some (from_utc_timestamp (elapsed_time_last_updated (player self))))
  /\ _attr_group_members self' = Some (group_childs (player self))
  /\ _attr_is_volume_muted self' = Some (volume_muted (player self)).
Proof.
  intros Ha self'. subst self'.
  refresh_cases self; try discriminate;
    (split; [intros q' Hq'|split; [intros Hq'|]]); try discriminate;
    try (injection Hq' as <-);
    run_on_update; repeat split; reflexivity.
Qed.

Lemma refresh_queue_attributes_witness :
  _attr_shuffle (final (async_on_update Demo.kiss_entity)) = Some true
  /\ _attr_repeat (final (async_on_update Demo.kiss_entity)) = Some "all"
  /\ _attr_shuffle (final (async_on_update Demo.linein_entity)) = None
  /\ _attr_app_id (final (async_on_update Demo.linein_entity)) = Some "linein".
Proof.
  destruct (refresh_queue_attributes Demo.kiss_entity eq_refl) as (Hq & _).
  destruct (refresh_queue_attributes Demo.linein_entity eq_refl) as (_ & Hn & _).
  destruct (Hq Demo.kiss_queue eq_refl) as (Hs & Hr & _).
  destruct (Hn eq_refl) as (Hs' & _ & Ha & _).
  split; [exact Hs|]. split; [exact Hr|]. split; [exact Hs'|exact Ha].
Defined.

(** X3.  An available entity whose active source has no queue: every
    refresh raises [AttributeError], and what comes after the failing
    assignment keeps its previous value: the debounce counter, the image
    URL and its remote flag, and title, content id, duration, artist and
    album. *)
Theorem refresh_without_queue_leaves_media_stale (self : MassPlayer) :
  available self = true ->
  get_player_queue (mass self) (active_source (player self)) = None ->
  let r := async_on_update self in
  result r = Raised AttributeError
  /\ _prev_time (final r) = _prev_time self
  /\ _attr_media_image_url (final r) = _attr_media_image_url self
  /\ _attr_media_image_remotely_accessible (final r)
     = _attr_media_image_remotely_accessible self
  /\ _attr_media_title (final r) = _attr_media_title self
  /\ _attr_media_content_id (final r) = _attr_media_content_id self
  /\ _attr_media_duration (final r) = _attr_media_duration self
  /\ _attr_media_artist (final r) = _attr_media_artist self
  /\ _attr_media_album_name (final r) = _attr_media_album_name self
  /\ _attr_media_album_artist (final r) = _attr_media_album_artist self.
Proof.
  intros Ha Hq r. subst r.
  destruct (powered (player self)) eqn:Hp; [destruct (state (player self)) eqn:Hs|];
    run_on_update; repeat split; reflexivity.
Qed.

Lemma refresh_without_queue_leaves_media_stale_witness :
  result (async_on_update
            (set_attr_media_title (Some "old title") Demo.linein_entity))
  = Raised AttributeError
  /\ _attr_media_title
       (final (async_on_update
                 (set_attr_media_title (Some "old title") Demo.linein_entity)))
     = Some "old title".
Proof.
  destruct (refresh_without_queue_leaves_media_stale
              (set_attr_media_title (Some "old title") Demo.linein_entity)
              eq_refl eq_refl) as (Hr & _ & _ & _ & Ht & _).
  split; [exact Hr|exact Ht].
Defined.

(** X4.  The image of an available entity with an active queue.  When
    the current item has an image, the URL is the engine's URL for it
    and the image counts as remotely accessible exactly when its
    provider is "url".  When there is no current item, or it has no
    image, the URL is cleared and the remote flag keeps whatever value
    it had. *)
Theorem refresh_image (self : MassPlayer) (q : PlayerQueue) :
  available self = true ->
  get_player_queue (mass self) (active_source (player self)) = Some q ->
  let self' := final (async_on_update self) in
  (forall cur image,
      current_item q = Some cur -> qi_image cur = Some image ->
      _attr_media_image_url self' = Some (get_image_url (mass self) image)
      /\ (_attr_media_image_remotely_accessible self' = true
          <-> image_provider image = "url"))
  /\ (current_item q = None
      \/ (exists cur, current_item q = Some cur /\ qi_image cur = None) ->
      _attr_media_image_url self' = None
      /\ _attr_media_image_remotely_accessible self'
         = _attr_media_image_remotely_accessible self).
Proof.
  intros Ha Hq self'. subst self'. split.
  - intros cur image Hc Hi.
    destruct (powered (player self)) eqn:Hp; [destruct (state (player self)) eqn:Hs|];
      run_on_update; (split; [reflexivity|apply String.eqb_eq]).
  - intros [Hc|(cur & Hc & Hi)];
      (destruct (powered (player self)) eqn:Hp;
       [destruct (state (player self)) eqn:Hs|]);
      run_on_update; split; reflexivity.
Qed.

Lemma refresh_image_witness :
  _attr_media_image_url (final (async_on_update Demo.kiss_entity))
  = Some "http://img/kiss.jpg"
  /\ _attr_media_image_url (final (async_on_update Demo.radio_entity)) = None.
Proof.
  destruct (refresh_image Demo.kiss_entity Demo.kiss_queue eq_refl eq_refl)
    as (Himg & _).
  destruct (refresh_image Demo.radio_entity Demo.radio_queue eq_refl eq_refl)
    as (_ & Hnone).
  split.
  - exact (proj1 (Himg Demo.kiss_item _ eq_refl eq_refl)).
  - apply Hnone. right. exists Demo.radio_item. split; reflexivity.
Defined.

(** X5.  Artist and album of an available entity whose queue plays an
    item with a media item attached.  For a track the artist is the
    artists' names joined by ", ", the album name is the album's when the
    track has one, and the album artist is that album's artist when it
    has one.  For any other type all three are unset. *)
Theorem refresh_track_metadata
    (self : MassPlayer) (q : PlayerQueue) (cur : QueueItem) (mi : MediaItem) :
  available self = true ->
  get_player_queue (mass self) (active_source (player self)) = Some q ->
  current_item q = Some cur ->
  qi_media_item cur = Some mi ->
  let self' := final (async_on_update self) in
  (media_type mi = TRACK ->
   _attr_media_artist self'
   = Some (PyStr.join ", " (map artist_name (artists mi)))
   /\ _attr_media_album_name self' = option_map album_name (album mi)
   /\ _attr_media_album_artist self'
      = match album mi with
        | Some alb => option_map artist_name (album_artist alb)
        | None => None
        end)
  /\ (media_type mi <> TRACK ->
      _attr_media_artist self' = None
      /\ _attr_media_album_name self' = None
      /\ _attr_media_album_artist self' = None).
Proof.
  intros Ha Hq Hc Hm self'. subst self'.
  assert (Hinfos : current_media_infos (player self) (Some q)
                   = current_media_infos (player self) (Some q)) by reflexivity.
  unfold current_media_infos at 2 in Hinfos. rewrite Hc, Hm in Hinfos.
  split; intros Hty;
    (destruct (media_type mi) eqn:Hmt; try discriminate Hty; try congruence);
    cbn in Hinfos;
    (destruct (powered (player self)) eqn:Hp;
     [destruct (state (player self)) eqn:Hs|]);
    (destruct (qi_image cur) eqn:Hi);
    run_on_update; rewrite ?Hinfos; cbn;
    repeat split; try reflexivity;
    destruct (album mi) as [alb|]; try reflexivity;
    destruct (album_artist alb); reflexivity.
Qed.

Lemma refresh_track_metadata_witness :
  _attr_media_artist (final (async_on_update Demo.kiss_entity)) = Some "Prince"
  /\ _attr_media_album_name (final (async_on_update Demo.kiss_entity)) = Some "Parade"
  /\ _attr_media_album_artist (final (async_on_update Demo.kiss_entity)) = Some "Prince"
  /\ _attr_media_artist (final (async_on_update Demo.radio_entity)) = None.
Proof.
  destruct (refresh_track_metadata Demo.kiss_entity Demo.kiss_queue Demo.kiss_item
              Demo.kiss eq_refl eq_refl eq_refl eq_refl) as (Htrack & _).
  destruct (refresh_track_metadata Demo.radio_entity Demo.radio_queue Demo.radio_item
              Demo.paradise eq_refl eq_refl eq_refl eq_refl) as (_ & Hother).
  destruct (Htrack eq_refl) as (Ha & Hn & Haa).
  assert (media_type Demo.paradise <> TRACK) as Hne by discriminate.
  destruct (Hother Hne) as (Hr & _).
  split; [exact Ha|]. split; [exact Hn|]. split; [exact Haa|exact Hr].
Defined.

(** X6.  An available entity whose queue has no current item, or a
    current item without a media item, shows the defaults: the title is
    the active source, the content id is the player's current URL, and
    duration, artist and album are unset. *)
Theorem refresh_default_metadata (self : MassPlayer) (q : PlayerQueue) :
  available self = true ->
  get_player_queue (mass self) (active_source (player self)) = Some q ->
  current_item q = None
  \/ (exists cur, current_item q = Some cur /\ qi_media_item cur = None) ->
  let self' := final (async_on_update self) in
  _attr_media_title self' = Some (active_source (player self))
  /\ _attr_media_content_id self' = current_url (player self)
  /\ _attr_media_duration self' = None
  /\ _attr_media_artist self' = None
  /\ _attr_media_album_name self' = None
  /\ _attr_media_album_artist self' = None.
Proof.
  intros Ha Hq Hcase self'. subst self'.
  assert (Hinfos : current_media_infos (player self) (Some q)
                   = {| media_artist := None; media_album_artist := None;
                        media_album_name := None;
                        media_title := Some (active_source (player self));
                        media_content_id := current_url (player self);
                        media_duration := None |}).
  { unfold current_media_infos.
    destruct Hcase as [Hc|(cur & Hc & Hm)]; rewrite Hc; [|rewrite Hm]; reflexivity. }
  destruct (powered (player self)) eqn:Hp; [destruct (state (player self)) eqn:Hs|];
    (destruct (current_item q) as [cur|] eqn:Hc; [destruct (qi_image cur) eqn:Hi|]);
    run_on_update; rewrite ?Hinfos; repeat split; reflexivity.
Qed.

Lemma refresh_default_metadata_witness :
  let bare := {| queue_id := "queue1"; shuffle_enabled := false;
                 repeat_mode := RepeatOFF;
                 queue_elapsed_time := PyNum.PyInt 0;
                 queue_elapsed_time_last_updated := PyNum.PyInt 0;
                 current_item := None |} in
  let self := MassPlayer_init
                {| get_player_queue := fun _ => Some bare;
                   get_image_url := get_image_url Demo.engine;
                   get_item := get_item Demo.engine;
                   get_library_playlists := get_library_playlists Demo.engine;
                   get_library_radios := get_library_radios Demo.engine;
                   get_library_albums := get_library_albums Demo.engine;
                   get_library_tracks := get_library_tracks Demo.engine;
                   get_library_artists := get_library_artists Demo.engine;
                   search := search Demo.engine |}
                "player1" (Demo.player_on "queue1" true IDLE 10) true in
  _attr_media_title (final (async_on_update self)) = Some "queue1"
  /\ _attr_media_content_id (final (async_on_update self))
     = Some "http://stream/linein".
Proof.
  intros bare self.
  destruct (refresh_default_metadata self bare eq_refl eq_refl
              (or_introl eq_refl)) as (Ht & Hc & _).
  split; [exact Ht|exact Hc].
Defined.


(** The remote flag of the image after a refresh. *)
Lemma async_on_update_remote_flag (self : MassPlayer) (q : PlayerQueue) :
  available self = true ->
  get_player_queue (mass self) (active_source (player self)) = Some q ->
  _attr_media_image_remotely_accessible (final (async_on_update self))
  = match current_item q with
    | Some cur =>
        match qi_image cur with
        | Some image => String.eqb (image_provider image) "url"
        | None => _attr_media_image_remotely_accessible self
        end
    | None => _attr_media_image_remotely_accessible self
    end.
Proof.
  intros Ha Hq.
  destruct (powered (player self)) eqn:Hp; [destruct (state (player self)) eqn:Hs|];
    (destruct (current_item q) as [cur|] eqn:Hc; [destruct (qi_image cur) eqn:Hi|]);
    run_on_update; reflexivity.
Qed.

(** Two refreshed entities mirroring the same player differ at most in
    the remote flag. *)
Lemma async_on_update_up_to_flag (self1 self2 : MassPlayer) (q : PlayerQueue) :
  mass self1 = mass self2 ->
  player_id self1 = player_id self2 ->
  player self1 = player self2 ->
  available self1 = true ->
  available self2 = true ->
  get_player_queue (mass self1) (active_source (player self1)) = Some q ->
  set_attr_media_image_remotely_accessible true (final (async_on_update self1))
  = set_attr_media_image_remotely_accessible true (final (async_on_update self2)).
Proof.
  intros Hm Hi Hp Ha1 Ha2 Hq.
  destruct self1 as [m1 i1 p1 a1 f1 ? ? ? ? ? ? ? ? ? ? ? ? ? ? ? ? ?].
  destruct self2 as [m2 i2 p2 a2 f2 ? ? ? ? ? ? ? ? ? ? ? ? ? ? ? ? ?].
  cbn in Hm, Hi, Hp, Ha1, Ha2, Hq. subst m1 i1 p1 a1 a2.
  destruct (powered p2) eqn:Hpow; [destruct (state p2) eqn:Hs|];
    (destruct (current_item q) as [cur|] eqn:Hc; [destruct (qi_image cur) eqn:Him|]);
    run_on_update; reflexivity.
Qed.

Lemma equal_up_to_flag (a b : MassPlayer) :
  set_attr_media_image_remotely_accessible true a
  = set_attr_media_image_remotely_accessible true b ->
  _attr_media_image_remotely_accessible a = _attr_media_image_remotely_accessible b ->
  a = b.
Proof.
  destruct a, b. cbn. intros H Hf. injection H. intros. subst. reflexivity.
Qed.

(** X7.  With an active queue a refresh is idempotent: refreshing again,
    with nothing changed at the engine, leaves the entity exactly as the
    first refresh left it. *)
Theorem refresh_idempotent (self : MassPlayer) (q : PlayerQueue) :
  get_player_queue (mass self) (active_source (player self)) = Some q ->
  final (async_on_update (final (async_on_update self)))
  = final (async_on_update self).
Proof.
  intros Hq. destruct (available self) eqn:Ha.
  - destruct (async_on_update_frame self) as (Hm & Hi & Hp & Hav).
    set (once := final (async_on_update self)) in *.
    assert (Hq1 : get_player_queue (mass once) (active_source (player once)) = Some q)
      by (rewrite Hm, Hp; exact Hq).
    assert (Ha1 : available once = true) by (rewrite Hav; exact Ha).
    apply equal_up_to_flag.
    + apply (async_on_update_up_to_flag once self q); auto.
    + rewrite (async_on_update_remote_flag once q Ha1 Hq1).
      subst once. rewrite (async_on_update_remote_flag self q Ha Hq).
      destruct (current_item q) as [cur|]; [destruct (qi_image cur)|]; reflexivity.
  - rewrite (async_on_update_unavailable self Ha). cbn [final].
    rewrite (async_on_update_unavailable self Ha). reflexivity.
Qed.

Lemma refresh_idempotent_witness :
  final (async_on_update (final (async_on_update Demo.kiss_entity)))
  = final (async_on_update Demo.kiss_entity).
Proof. exact (refresh_idempotent Demo.kiss_entity Demo.kiss_queue eq_refl). Defined.

(** X8.  What a completed refresh shows depends on the engine's state
    only.  Two available entities mirroring the same player through the
    same client end up with the same attributes and debounce counter,
    whatever they showed before, except possibly the remote flag of the
    image; they end up equal altogether when their flags agreed before,
    or when the current item has an image. *)
Theorem refresh_forgets_previous_attributes
    (self1 self2 : MassPlayer) (q : PlayerQueue) :
  mass self1 = mass self2 ->
  player_id self1 = player_id self2 ->
  player self1 = player self2 ->
  available self1 = true ->
  available self2 = true ->
  get_player_queue (mass self1) (active_source (player self1)) = Some q ->
  let r1 := final (async_on_update self1) in
  let r2 := final (async_on_update self2) in
  set_attr_media_image_remotely_accessible true r1
  = set_attr_media_image_remotely_accessible true r2
  /\ (_attr_media_image_remotely_accessible self1
      = _attr_media_image_remotely_accessible self2 -> r1 = r2)
  /\ (forall cur image,
         current_item q = Some cur -> qi_image cur = Some image -> r1 = r2).
Proof.
  intros Hm Hi Hp Ha1 Ha2 Hq r1 r2. subst r1 r2.
  pose proof (async_on_update_up_to_flag self1 self2 q Hm Hi Hp Ha1 Ha2 Hq) as Heq.
  assert (Hq2 : get_player_queue (mass self2) (active_source (player self2)) = Some q)
    by (rewrite <- Hm, <- Hp; exact Hq).
  split; [exact Heq|]. split.
  - intros Hflag. apply equal_up_to_flag; [exact Heq|].
    rewrite (async_on_update_remote_flag self1 q Ha1 Hq),
      (async_on_update_remote_flag self2 q Ha2 Hq2), Hflag. reflexivity.
  - intros cur image Hc Him. apply equal_up_to_flag; [exact Heq|].
    rewrite (async_on_update_remote_flag self1 q Ha1 Hq),
      (async_on_update_remote_flag self2 q Ha2 Hq2), Hc, Him. reflexivity.
Qed.

Lemma refresh_forgets_previous_attributes_witness :
  final (async_on_update
           (set_attr_media_title (Some "old title") Demo.kiss_entity))
  = final (async_on_update Demo.kiss_entity).
Proof.
  exact (proj1 (proj2 (refresh_forgets_previous_attributes
           (set_attr_media_title (Some "old title") Demo.kiss_entity)
           Demo.kiss_entity Demo.kiss_queue
           eq_refl eq_refl eq_refl eq_refl eq_refl eq_refl)) eq_refl).
Defined.

(* ===================================================================== *)
(** ** Further properties of the debounced time update *)
(* ===================================================================== *)

(** The handler on an event from the active source, a known queue. *)
Lemma queue_time_updated_known_queue
    (self : MassPlayer) (event : MassEvent) (q : PlayerQueue) :
  object_id event = active_source (player self) ->
  get_player_queue (mass self) (active_source (player self)) = Some q ->
  queue_time_updated event self
  = if PyNum.gt_int (PyNum.abs (PyNum.sub (_prev_time self) (data event))) 5
    then mkRun (set_prev_time (data event) (final (async_on_update self)))
           [async_write_ha_state] (Ok tt)
    else mkRun (set_prev_time (data event) self) [] (Ok tt).
Proof.
  intros Hid Hq. unfold queue_time_updated. unfold_monad.
  rewrite Hid, String.eqb_refl. cbn [negb].
  destruct (PyNum.gt_int _ 5); [|reflexivity].
  rewrite (async_on_update_returns self q Hq). reflexivity.
Qed.

(** X9.  Events of other queues are invisible to the entity.  An event
    whose source is not the player's active source is dropped at once:
    nothing is refreshed or notified and the counter keeps its value,
    however large the jump; so the next event from the active source is
    handled as if the foreign event had never arrived. *)
Theorem foreign_time_updates_are_invisible
    (self : MassPlayer) (foreign event : MassEvent) :
  object_id foreign <> active_source (player self) ->
  queue_time_updated foreign self = mkRun self [] (Ok tt)
  /\ queue_time_updated event (final (queue_time_updated foreign self))
     = queue_time_updated event self.
Proof.
  intros Hne. unfold queue_time_updated at 1 3. unfold_monad.
  apply String.eqb_neq in Hne. rewrite Hne. cbn [negb final].
  split; reflexivity.
Qed.

Lemma foreign_time_updates_are_invisible_witness :
  queue_time_updated {| object_id := "queue2"; data := PyNum.PyInt 500 |}
    Demo.radio_entity
  = mkRun Demo.radio_entity [] (Ok tt).
Proof.
  refine (proj1 (foreign_time_updates_are_invisible Demo.radio_entity
                   {| object_id := "queue2"; data := PyNum.PyInt 500 |}
                   {| object_id := "queue1"; data := PyNum.PyInt 1 |} _)).
  discriminate.
Defined.

(** X10.  The debounce compares an event with the event before it, not
    with the last refresh.  After any handled event from the active
    queue the counter is that event's time, so the next event notifies
    exactly when it is more than 5 away from the previous event, whatever
    the counter was before and whatever elapsed time a refresh in between
    read from the queue. *)
Theorem debounce_compares_consecutive_events
    (self : MassPlayer) (event1 event2 : MassEvent) (q : PlayerQueue) :
  object_id event1 = active_source (player self) ->
  object_id event2 = active_source (player self) ->
  get_player_queue (mass self) (active_source (player self)) = Some q ->
  let r1 := queue_time_updated event1 self in
  let r2 := queue_time_updated event2 (final r1) in
  result r1 = Ok tt
  /\ _prev_time (final r1) = data event1
  /\ result r2 = Ok tt
  /\ _prev_time (final r2) = data event2
  /\ (In async_write_ha_state (trace r2) <->
      PyNum.gt_int (PyNum.abs (PyNum.sub (data event1) (data event2))) 5 = true).
Proof.
  intros Hid1 Hid2 Hq r1 r2.
  assert (H1 : result r1 = Ok tt /\ _prev_time (final r1) = data event1
               /\ mass (final r1) = mass self /\ player (final r1) = player self).
  { subst r1. rewrite (queue_time_updated_known_queue self event1 q Hid1 Hq).
    destruct (async_on_update_frame self) as (Hm & _ & Hp & _).
    destruct (PyNum.gt_int _ 5); cbn; auto. }
  destruct H1 as (Hres1 & Hprev1 & Hm1 & Hp1).
  assert (Hid2' : object_id event2 = active_source (player (final r1)))
    by (rewrite Hp1; exact Hid2).
  assert (Hq' : get_player_queue (mass (final r1))
                  (active_source (player (final r1))) = Some q)
    by (rewrite Hm1, Hp1; exact Hq).
  split; [exact Hres1|]. split; [exact Hprev1|].
  subst r2. rewrite (queue_time_updated_known_queue (final r1) event2 q Hid2' Hq').
  rewrite Hprev1.
  destruct (PyNum.gt_int _ 5); cbn; repeat split; auto; try discriminate;
    try contradiction.
Qed.

Lemma debounce_compares_consecutive_events_witness :
  let tick d := {| object_id := "queue1"; data := PyNum.PyInt d |} in
  let after_first := final (queue_time_updated (tick 200) Demo.radio_entity) in
  ~ In async_write_ha_state (trace (queue_time_updated (tick 203) after_first))
  /\ In async_write_ha_state (trace (queue_time_updated (tick 103) after_first)).
Proof.
  intros tick after_first.
  destruct (debounce_compares_consecutive_events Demo.radio_entity (tick 200) (tick 203)
              Demo.radio_queue eq_refl eq_refl eq_refl) as (_ & _ & _ & _ & Hnear).
  destruct (debounce_compares_consecutive_events Demo.radio_entity (tick 200) (tick 103)
              Demo.radio_queue eq_refl eq_refl eq_refl) as (_ & _ & _ & _ & Hfar).
  split.
  - intros Hin. apply Hnear in Hin. discriminate Hin.
  - apply Hfar. reflexivity.
Defined.

(** X11.  An event from the active source while the client has no queue
    for it (available entity).  On a jump the refresh raises
    [AttributeError]: no notification is written and the counter is not
    advanced to the event's time.  Without a jump nothing is refreshed,
    so the handler returns and the counter takes the event's time. *)
Theorem time_update_without_queue (self : MassPlayer) (event : MassEvent) :
  object_id event = active_source (player self) ->
  available self = true ->
  get_player_queue (mass self) (active_source (player self)) = None ->
  let r := queue_time_updated event self in
  let jump := PyNum.gt_int (PyNum.abs (PyNum.sub (_prev_time self) (data event))) 5 in
  (jump = true ->
   result r = Raised AttributeError /\ trace r = []
   /\ _prev_time (final r) = _prev_time self)
  /\ (jump = false -> r = mkRun (set_prev_time (data event) self) [] (Ok tt)).
Proof.
  intros Hid Ha Hq r jump.
  destruct (async_on_update_without_queue self Ha Hq) as (Hres & Hprev & _).
  pose proof (async_on_update_silent self) as Htr.
  subst r jump. unfold queue_time_updated. unfold_monad.
  rewrite Hid, String.eqb_refl. cbn [negb].
  destruct (PyNum.gt_int _ 5); (split; intros Hj; try discriminate Hj).
  - destruct (async_on_update self) as [s t o]. cbn in Hres, Hprev, Htr. subst.
    cbn. auto.
  - reflexivity.
Qed.

Lemma time_update_without_queue_witness :
  let r := queue_time_updated {| object_id := "linein"; data := PyNum.PyInt 42 |}
             Demo.linein_entity in
  result r = Raised AttributeError /\ trace r = []
  /\ _prev_time (final r) = PyNum.PyInt 0.
Proof.
  exact (proj1 (time_update_without_queue Demo.linein_entity
                  {| object_id := "linein"; data := PyNum.PyInt 42 |}
                  eq_refl eq_refl eq_refl) eq_refl).
Defined.

(** X12.  An unavailable entity still reacts to events from its active
    source: on a jump the platform is notified although the refresh
    changed nothing, and in either case only the counter changes. *)
Theorem time_update_when_unavailable (self : MassPlayer) (event : MassEvent) :
  object_id event = active_source (player self) ->
  available self = false ->
  queue_time_updated event self
  = mkRun (set_prev_time (data event) self)
      (if PyNum.gt_int (PyNum.abs (PyNum.sub (_prev_time self) (data event))) 5
       then [async_write_ha_state] else [])
      (Ok tt).
Proof.
  intros Hid Ha. unfold queue_time_updated. unfold_monad.
  rewrite Hid, String.eqb_refl. cbn [negb].
  destruct (PyNum.gt_int _ 5); [|reflexivity].
  rewrite (async_on_update_unavailable self Ha). reflexivity.
Qed.

Lemma time_update_when_unavailable_witness :
  trace (queue_time_updated {| object_id := "queue1"; data := PyNum.PyInt 42 |}
           (MassPlayer_init Demo.engine "player1"
              (Demo.player_on "queue1" true PLAYING 29) false))
  = [async_write_ha_state].
Proof.
  rewrite (time_update_when_unavailable
             (MassPlayer_init Demo.engine "player1"
                (Demo.player_on "queue1" true PLAYING 29) false)
             {| object_id := "queue1"; data := PyNum.PyInt 42 |} eq_refl eq_refl).
  reflexivity.
Defined.

(* ===================================================================== *)
(** ** Further properties of the command forwarders *)
(* ===================================================================== *)

(** X13.  Seeking to a [float] position.  [nan] raises [ValueError] and
    an infinity raises [OverflowError], nothing being sent.  Any other
    position is truncated towards zero: the seconds sent are the floor of
    the position's absolute value, negated for a negative position. *)
Theorem seek_truncates_towards_zero (self : MassPlayer) (x : PyNum.float) :
  let target :=
    match get_player_queue (mass self) (active_source (player self)) with
    | Some queue => queue_id queue
    | None => player_id self
    end in
  match x with
  | S754_nan => async_media_seek (PyNum.PyFloat x) self = mkRun self [] (Raised ValueError)
  | S754_infinity _ =>
      async_media_seek (PyNum.PyFloat x) self = mkRun self [] (Raised OverflowError)
  | _ =>
      let magnitude := Qfloor (Qabs (PyNum.to_Q x)) in
      async_media_seek (PyNum.PyFloat x) self
      = mkRun self
          [queue_command_seek target
             (if PyNum.fltb x (PyNum.of_int 0) then - magnitude else magnitude)]
          (Ok tt)
  end.
Proof.
  intros target. subst target.
  destruct x as [s|s| |s m e]; try reflexivity.
  - unfold async_media_seek. unfold_monad. cbn.
    destruct (get_player_queue _ _); destruct s; reflexivity.
  - cbv zeta.
    assert (Habs : Qabs (PyNum.to_Q (S754_finite s m e))
                   = PyNum.to_Q (S754_finite false m e)).
    { cbn [PyNum.to_Q]. destruct e as [|p|p]; destruct s; try reflexivity;
        unfold Qabs, inject_Z; f_equal; cbn [cond_Zopp Z.opp];
        rewrite Z.abs_mul; f_equal; apply Z.abs_eq, Z.pow_nonneg; lia. }
    rewrite Habs.
    assert (Hk : Z.shiftl (Zpos m) e = Qfloor (PyNum.to_Q (S754_finite false m e))).
    { destruct (to_int_floor (S754_finite false m e)) as [Hint _];
        [right; eauto|].
      unfold PyNum.to_int, cond_Zopp in Hint. congruence. }
    rewrite <- Hk.
    replace (PyNum.fltb (S754_finite s m e) (PyNum.of_int 0)) with s
      by (destruct s; reflexivity).
    unfold async_media_seek. unfold_monad. cbn.
    destruct (get_player_queue _ _); destruct s; reflexivity.
Qed.

(** *** The scaled volume stays on the engine's scale *)

Lemma shr_1_halves (mrs : shr_record) :
  0 <= shr_m mrs -> 0 <= shr_m (shr_1 mrs) /\ 2 * shr_m (shr_1 mrs) <= shr_m mrs.
Proof.
  destruct mrs as [m r s]. destruct m as [|[p|p|]|p]; cbn; lia.
Qed.

Lemma iter_shr_1_divides (p : positive) (mrs : shr_record) :
  0 <= shr_m mrs ->
  0 <= shr_m (iter_pos shr_1 p mrs)
  /\ 2 ^ Zpos p * shr_m (iter_pos shr_1 p mrs) <= shr_m mrs.
Proof.
  revert mrs. induction p as [p IH|p IH|]; intros mrs H; cbn [iter_pos].
  - destruct (shr_1_halves mrs H) as [H1 H1'].
    destruct (IH _ H1) as [H2 H2'].
    destruct (IH _ H2) as [H3 H3'].
    split; [exact H3|].
    replace (Zpos p~1) with (Zpos p + Zpos p + 1) by lia.
    rewrite !Z.pow_add_r, Z.pow_1_r by lia.
    assert (Hpw : 0 < 2 ^ Zpos p) by (apply Z.pow_pos_nonneg; lia).
    set (P := 2 ^ Zpos p) in *.
    assert (P * (P * shr_m (iter_pos shr_1 p (iter_pos shr_1 p (shr_1 mrs))))
            <= P * shr_m (iter_pos shr_1 p (shr_1 mrs)))
      by (apply Z.mul_le_mono_nonneg_l; lia).
    lia.
  - destruct (IH _ H) as [H2 H2'].
    destruct (IH _ H2) as [H3 H3'].
    split; [exact H3|].
    replace (Zpos p~0) with (Zpos p + Zpos p) by lia.
    rewrite Z.pow_add_r by lia.
    assert (Hpw : 0 < 2 ^ Zpos p) by (apply Z.pow_pos_nonneg; lia).
    set (P := 2 ^ Zpos p) in *.
    assert (P * (P * shr_m (iter_pos shr_1 p (iter_pos shr_1 p mrs)))
            <= P * shr_m (iter_pos shr_1 p mrs))
      by (apply Z.mul_le_mono_nonneg_l; lia).
    lia.
  - destruct (shr_1_halves mrs H). change (2 ^ 1) with 2. lia.
Qed.

(** Shifting by [n] places divides the mantissa by [2^n], rounding
    down, and raises the exponent by [n]. *)
Lemma shr_fexp_shift (m e : Z) (l : location) :
  0 <= m ->
  let '(mrs, e') := shr_fexp PyNum.prec PyNum.emax m e l in
  exists n, 0 <= n /\ e' = e + n
            /\ 0 <= shr_m mrs /\ 2 ^ n * shr_m mrs <= m
            /\ e' <= Z.max e (fexp PyNum.prec PyNum.emax (Zdigits2 m + e)).
Proof.
  intros Hm. unfold shr_fexp, shr.
  assert (Hrec : shr_m (shr_record_of_loc m l) = m)
    by (destruct l as [|[]]; reflexivity).
  set (target := fexp PyNum.prec PyNum.emax (Zdigits2 m + e)).
  destruct (target - e) as [|p|p] eqn:Hn.
  - exists 0. rewrite Hrec. change (2 ^ 0) with 1. lia.
  - exists (Zpos p).
    destruct (iter_shr_1_divides p (shr_record_of_loc m l)) as [H1 H2];
      [rewrite Hrec; exact Hm|].
    rewrite Hrec in H2. lia.
  - exists 0. rewrite Hrec. change (2 ^ 0) with 1. lia.
Qed.

Lemma scaled_le_self (a m M : Z) :
  0 < a -> 0 <= m -> a * m <= M -> m <= M.
Proof. intros Ha Hm H. nia. Qed.

Lemma rounded_shift_bound (P1 P2 m1 m2 m3 M PK : Z) :
  0 < P1 -> 0 < P2 -> 0 <= m3 ->
  P1 * m1 <= M -> m2 <= m1 + 1 -> P2 * m3 <= m2 ->
  M <= 100 * PK -> P1 * 35184372088832 <= PK ->
  P1 * P2 * m3 < 101 * PK.
Proof.
  intros HP1 HP2 Hm3 H1 H2 H3 HM HPK.
  assert (P1 * (P2 * m3) <= P1 * m2) by (apply Z.mul_le_mono_nonneg_l; lia).
  assert (P1 * m2 <= P1 * (m1 + 1)) by (apply Z.mul_le_mono_nonneg_l; lia).
  lia.
Qed.

Lemma cancel_scale (a m b : Z) :
  0 < a -> a * m < 101 * (a * b) -> m < 101 * b.
Proof.
  intros Ha H. apply (Z.mul_lt_mono_pos_l a); [exact Ha|]. lia.
Qed.

(** A product of at most [100 * 2^K], scaled by [2^-K], rounds to a
    float whose integer part is at most 100. *)
Lemma binary_round_aux_at_most_100 (mx : positive) (K : Z) :
  98 <= K -> Zpos mx < 2 ^ 106 -> Zpos mx <= 100 * 2 ^ K ->
  exists z,
    PyNum.to_int (binary_round_aux PyNum.prec PyNum.emax false (Zpos mx) (- K) loc_Exact)
    = Ok z
    /\ 0 <= z <= 100.
Proof.
  intros HK Hmx Hle. unfold binary_round_aux.
  pose proof (shr_fexp_shift (Zpos mx) (- K) loc_Exact ltac:(lia)) as H1.
  destruct (shr_fexp PyNum.prec PyNum.emax (Zpos mx) (- K) loc_Exact) as [mrs1 e1].
  destruct H1 as (n1 & Hn1 & He1 & Hm1 & Hdiv1 & Hmax1).
  pose proof (round_nearest_even_bounds (shr_m mrs1) (loc_of_shr_record mrs1)) as Hr.
  set (m2 := round_nearest_even (shr_m mrs1) (loc_of_shr_record mrs1)) in *.
  pose proof (shr_fexp_shift m2 e1 loc_Exact ltac:(lia)) as H2.
  destruct (shr_fexp PyNum.prec PyNum.emax m2 e1 loc_Exact) as [mrs2 e2].
  destruct H2 as (n2 & Hn2 & He2 & Hm3 & Hdiv2 & Hmax2).
  assert (Hd1 : Zdigits2 (Zpos mx) <= 106) by (apply Zdigits2_le; lia).
  assert (Hp1 : 0 < 2 ^ n1) by (apply Z.pow_pos_nonneg; lia).
  assert (Hp2 : 0 < 2 ^ n2) by (apply Z.pow_pos_nonneg; lia).
  assert (Hm1le : shr_m mrs1 <= Zpos mx)
    by (apply (scaled_le_self (2 ^ n1)); assumption).
  assert (Hd2 : Zdigits2 m2 <= 107).
  { apply Zdigits2_le; [|lia]. change (2 ^ 107) with (2 * 2 ^ 106). lia. }
  unfold fexp, emin, PyNum.prec, PyNum.emax in *.
  assert (Hn1K : n1 <= K - 45) by lia.
  assert (Hpow : 2 ^ n1 * 35184372088832 <= 2 ^ K).
  { change 35184372088832 with (2 ^ 45).
    rewrite <- Z.pow_add_r by lia. apply Z.pow_le_mono_r; lia. }
  assert (Hbound : 2 ^ (n1 + n2) * shr_m mrs2 < 101 * 2 ^ K).
  { rewrite Z.pow_add_r by lia.
    apply (rounded_shift_bound (2 ^ n1) (2 ^ n2) (shr_m mrs1) m2 (shr_m mrs2)
             (Zpos mx) (2 ^ K)); lia. }
  destruct (shr_m mrs2) as [|m3|m3] eqn:Hm3eq;
    [exists 0; split; [reflexivity|lia]| |lia].
  replace (e2 <=? 1024 - 53) with true by (symmetry; apply Z.leb_le; lia).
  cbn [PyNum.to_int cond_Zopp].
  exists (Z.shiftl (Zpos m3) e2). split; [reflexivity|].
  assert (Hsum : 0 < 2 ^ (n1 + n2)) by (apply Z.pow_pos_nonneg; lia).
  destruct (Z_le_gt_dec 0 e2) as [Hpos|Hneg].
  - rewrite Z.shiftl_mul_pow2 by lia.
    assert (Hpe2 : 0 < 2 ^ e2) by (apply Z.pow_pos_nonneg; lia).
    replace (n1 + n2) with (K + e2) in Hbound by lia.
    rewrite Z.pow_add_r in Hbound by lia.
    assert (HpK : 0 < 2 ^ K) by (apply Z.pow_pos_nonneg; lia).
    assert (Zpos m3 * 2 ^ e2 < 101 * 1).
    { apply (cancel_scale (2 ^ K)); [exact HpK|]. lia. }
    split; [apply Z.mul_nonneg_nonneg; lia|lia].
  - rewrite <- (Z.opp_involutive e2), Z.shiftl_opp_r, Z.shiftr_div_pow2 by lia.
    assert (Hq : 0 < 2 ^ (- e2)) by (apply Z.pow_pos_nonneg; lia).
    replace K with ((n1 + n2) + (- e2)) in Hbound by lia.
    rewrite (Z.pow_add_r 2 (n1 + n2) (- e2)) in Hbound by lia.
    assert (Zpos m3 < 101 * 2 ^ (- e2))
      by (apply (cancel_scale (2 ^ (n1 + n2))); assumption).
    split.
    + apply Z.div_pos; lia.
    + assert (Zpos m3 / 2 ^ (- e2) < 101); [|lia].
      apply Z.div_lt_upper_bound; lia.
Qed.

(** X14.  For every float [v] with [0 <= v <= 1] the volume sent to the
    engine is on its scale: an integer between 0 and 100. *)
Theorem set_volume_level_in_range (self : MassPlayer) (v : PyNum.float) :
  valid_binary PyNum.prec PyNum.emax v = true ->
  PyNum.fleb (PyNum.of_int 0) v = true ->
  PyNum.fleb v (PyNum.of_int 1) = true ->
  exists volume,
    async_set_volume_level v self
    = mkRun self [player_command_volume_set (player_id self) volume] (Ok tt)
    /\ 0 <= volume <= 100.
Proof.
  intros Hvalid Hlo Hhi.
  assert (Hint : exists z, PyNum.to_int (PyNum.fmul v (PyNum.of_int 100)) = Ok z
                           /\ 0 <= z <= 100).
  { rewrite of_int_0 in Hlo. rewrite of_int_1 in Hhi. rewrite of_int_100.
    destruct v as [s|s| |s m e]; try discriminate Hhi.
    - exists 0. split; [reflexivity|lia].
    - destruct s; [discriminate Hlo|]. discriminate Hhi.
    - destruct s; [discriminate Hlo|].
      assert (Hm : Zpos m < 2 ^ 53).
      { cbn [valid_binary] in Hvalid. unfold bounded, canonical_mantissa in Hvalid.
        apply andb_prop in Hvalid as [Hcanon _]. apply Z.eqb_eq in Hcanon.
        unfold fexp, emin, PyNum.prec, PyNum.emax in Hcanon.
        pose proof (digits2_pos_lt m) as Hlt.
        assert (Zpos (digits2_pos m) <= 53) as Hd by lia.
        eapply Z.lt_le_trans; [exact Hlt|].
        apply Z.pow_le_mono_r; lia. }
      assert (He : e <= -52 /\ Zpos m <= 2 ^ (- e)).
      { unfold PyNum.fleb, SFleb, SFcompare in Hhi.
        destruct (e ?= -52) eqn:Hcmp; try discriminate Hhi.
        - apply Z.compare_eq in Hcmp. subst e. split; [lia|].
          change (2 ^ (- -52)) with 4503599627370496.
          destruct (Pos.compare_cont Eq m 4503599627370496) eqn:Hc;
            try discriminate Hhi.
          + apply Pos.compare_eq in Hc. subst m. apply Z.le_refl.
          + apply Z.lt_le_incl. exact Hc.
        - assert (e < -52) by exact Hcmp. split; [lia|].
          apply Z.lt_le_incl. eapply Z.lt_le_trans; [exact Hm|].
          apply Z.pow_le_mono_r; lia. }
      destruct He as [He Hme].
      unfold PyNum.fmul, SFmul. cbn [xorb].
      replace (e + -46) with (- (46 - e)) by lia.
      apply binary_round_aux_at_most_100.
      + lia.
      + rewrite Pos2Z.inj_mul. change (2 ^ 106) with (2 ^ 53 * 2 ^ 53).
        apply Z.mul_lt_mono_nonneg; lia.
      + rewrite Pos2Z.inj_mul.
        replace (46 - e) with (- e + 46) by lia.
        rewrite Z.pow_add_r by lia.
        change (Zpos 7036874417766400) with (100 * 70368744177664).
        change (2 ^ 46) with 70368744177664.
        assert (Zpos m * 70368744177664 <= 2 ^ (- e) * 70368744177664)
          by (apply Z.mul_le_mono_nonneg_r; lia).
        lia. }
  destruct Hint as (z & Hz & Hrange).
  exists z. split; [|exact Hrange].
  unfold async_set_volume_level. unfold_monad. rewrite Hz. reflexivity.
Qed.

Lemma set_volume_level_in_range_witness :
  exists volume,
    async_set_volume_level (PyNum.of_int 1) Demo.radio_entity
    = mkRun Demo.radio_entity [player_command_volume_set "player1" volume] (Ok tt)
    /\ 0 <= volume <= 100.
Proof.
  exact (set_volume_level_in_range Demo.radio_entity (PyNum.of_int 1)
           eq_refl eq_refl eq_refl).
Defined.

Lemma volume_round_trips_as_expected :
  forallb volume_round_trip_as_expected (map Z.of_nat (seq 0 101)) = true.
Proof. vm_compute. reflexivity. Qed.

(** X15.  Projecting an engine volume and setting the projected level
    again does not always give the volume back: the level [g / 100]
    scaled by 100 and truncated is [g - 1] for the engine volumes 29, 57
    and 58, and [g] for every other volume from 0 to 100. *)
Theorem volume_round_trip_lossy (self : MassPlayer) (g : Z) :
  available self = true ->
  volume_level (player self) = g ->
  0 <= g <= 100 ->
  exists level,
    _attr_volume_level (final (async_on_update self)) = Some level
    /\ async_set_volume_level level (final (async_on_update self))
       = mkRun (final (async_on_update self))
           [player_command_volume_set (player_id self)
              (if existsb (Z.eqb g) lossy_volumes then g - 1 else g)]
           (Ok tt).
Proof.
  intros Ha Hg Hrange.
  exists (PyNum.fdiv (PyNum.of_int g) (PyNum.of_int 100)). split.
  - refresh_cases self; try discriminate; run_on_update; reflexivity.
  - pose proof volume_round_trips_as_expected as Hall.
    rewrite forallb_forall in Hall.
    specialize (Hall g). unfold volume_round_trip_as_expected in Hall.
    assert (Hin : In g (map Z.of_nat (seq 0 101))).
    { apply in_map_iff. exists (Z.to_nat g). split; [lia|]. apply in_seq. lia. }
    specialize (Hall Hin).
    unfold volume_round_trip in Hall.
    destruct (async_on_update_frame self) as (_ & Hid & _).
    remember (final (async_on_update self)) as once eqn:Honce.
    unfold async_set_volume_level. unfold_monad.
    destruct (PyNum.to_int _) as [g'|]; [|discriminate Hall].
    apply Z.eqb_eq in Hall. subst g'. rewrite Hid. reflexivity.
Qed.

Lemma volume_round_trip_lossy_witness :
  exists level,
    _attr_volume_level (final (async_on_update Demo.radio_entity)) = Some level
    /\ async_set_volume_level level (final (async_on_update Demo.radio_entity))
       = mkRun (final (async_on_update Demo.radio_entity))
           [player_command_volume_set "player1" 28] (Ok tt).
Proof.
  refine (volume_round_trip_lossy Demo.radio_entity 29 eq_refl eq_refl _). lia.
Defined.

(** X16.  Repeat modes round-trip, and only the engine's three mode
    names are accepted.  The repeat attribute a refresh projects from
    the active queue, handed back to [async_set_repeat], sends that
    queue its own mode.  Any string other than "off", "one" and "all"
    (the test is case-sensitive) raises [ValueError] and sends
    nothing. *)
Theorem repeat_round_trip (self : MassPlayer) :
  (forall q,
      available self = true ->
      get_player_queue (mass self) (active_source (player self)) = Some q ->
      exists shown,
        _attr_repeat (final (async_on_update self)) = Some shown
        /\ async_set_repeat shown (final (async_on_update self))
           = mkRun (final (async_on_update self))
               [queue_command_repeat (queue_id q) (repeat_mode q)] (Ok tt))
  /\ (forall repeat,
         repeat <> "off" -> repeat <> "one" -> repeat <> "all" ->
         async_set_repeat repeat self = mkRun self [] (Raised ValueError))
  /\ (forall repeat,
         result (async_set_repeat repeat self) = Ok tt ->
         repeat = "off" \/ repeat = "one" \/ repeat = "all").
Proof.
  assert (Hinvalid : forall repeat,
             repeat <> "off" -> repeat <> "one" -> repeat <> "all" ->
             RepeatMode_of repeat = Raised ValueError).
  { intros repeat H1 H2 H3. unfold RepeatMode_of.
    apply String.eqb_neq in H1, H2, H3. rewrite H1, H2, H3. reflexivity. }
  split; [|split].
  - intros q Ha Hq. exists (RepeatMode_value (repeat_mode q)).
    destruct (async_on_update_frame self) as (Hm & _ & Hp & _).
    split.
    + refresh_cases self; try discriminate;
        match goal with H : Some _ = Some q |- _ => injection H as -> end;
        run_on_update; reflexivity.
    + remember (final (async_on_update self)) as once eqn:Honce.
      unfold async_set_repeat. unfold_monad. cbn. rewrite Hm, Hp, Hq.
      destruct (repeat_mode q); reflexivity.
  - intros repeat H1 H2 H3. apply async_set_repeat_invalid. auto.
  - intros repeat Hres.
    destruct (String.eqb_spec repeat "off") as [|H1]; [auto|].
    destruct (String.eqb_spec repeat "one") as [|H2]; [auto|].
    destruct (String.eqb_spec repeat "all") as [|H3]; [auto|].
    rewrite (async_set_repeat_invalid self repeat (Hinvalid _ H1 H2 H3)) in Hres.
    discriminate Hres.
Qed.

Lemma repeat_round_trip_witness :
  (exists shown,
      _attr_repeat (final (async_on_update Demo.kiss_entity)) = Some shown
      /\ async_set_repeat shown (final (async_on_update Demo.kiss_entity))
         = mkRun (final (async_on_update Demo.kiss_entity))
             [queue_command_repeat "queue2" RepeatALL] (Ok tt))
  /\ async_set_repeat "ALL" Demo.kiss_entity
     = mkRun Demo.kiss_entity [] (Raised ValueError).
Proof.
  destruct (repeat_round_trip Demo.kiss_entity) as (Hrt & Hbad & _).
  split.
  - exact (Hrt Demo.kiss_queue eq_refl eq_refl).
  - apply Hbad; discriminate.
Defined.

(* ===================================================================== *)
(** ** Further properties of the media resolver *)
(* ===================================================================== *)

(** *** Which calls a lookup makes *)

Lemma sends_only_ret {A : Type} (P : Effect -> bool) (a : A) : sends_only P (ret a).
Proof. intros self. reflexivity. Qed.

Lemma sends_only_raise {A : Type} (P : Effect -> bool) (e : exn) :
  sends_only P (@raise A e).
Proof. intros self. reflexivity. Qed.

Lemma sends_only_get_self (P : Effect -> bool) : sends_only P get_self.
Proof. intros self. reflexivity. Qed.

Lemma sends_only_emit (P : Effect -> bool) (e : Effect) :
  P e = true -> sends_only P (emit e).
Proof. intros He self. cbn. rewrite He. reflexivity. Qed.

Lemma sends_only_bind {A B : Type} (P : Effect -> bool) (m : M A) (f : A -> M B) :
  sends_only P m -> (forall a, sends_only P (f a)) -> sends_only P (bind m f).
Proof.
  intros Hm Hf self. unfold bind. specialize (Hm self).
  destruct (m self) as [s1 t1 [a|e]]; cbn in *; [|exact Hm].
  specialize (Hf a s1). destruct (f a s1) as [s2 t2 o2]. cbn in *.
  rewrite forallb_app, Hm, Hf. reflexivity.
Qed.

Lemma sends_only_call_library (P : Effect -> bool) (func : LibraryFunction) (s : string) :
  P (music_get_library func s) = true -> sends_only P (call_library func s).
Proof. intros HP self. cbn. rewrite HP. reflexivity. Qed.

Lemma sends_only_call_search (P : Effect -> bool) (name : string) (types : list string) :
  P (music_search name types) = true -> sends_only P (call_search name types).
Proof. intros HP self. cbn. rewrite HP. reflexivity. Qed.

Lemma sends_only_lookup_by_artist_split (P : Effect -> bool) (func : LibraryFunction)
    (s : string) (splitters : list string) :
  (forall t, P (music_get_library func t) = true) ->
  sends_only P (lookup_by_artist_split func s splitters).
Proof.
  intros HP. induction splitters as [|splitter rest IH]; cbn [lookup_by_artist_split].
  - apply sends_only_ret.
  - destruct (PyStr.contains splitter s); [|exact IH].
    destruct (PyStr.split_once splitter s) as [[a t]|]; [|apply sends_only_raise].
    apply sends_only_bind; [apply sends_only_call_library, HP|].
    intros items. destruct (find _ items); [apply sends_only_ret|exact IH].
Qed.

Lemma sends_only_lookup_in_library (P : Effect -> bool) (funcs : list LibraryFunction)
    (s : string) :
  (forall func t, In func funcs -> P (music_get_library func t) = true) ->
  sends_only P (lookup_in_library funcs s).
Proof.
  induction funcs as [|func rest IH]; intros HP; cbn [lookup_in_library].
  - apply sends_only_ret.
  - apply sends_only_bind; [apply sends_only_call_library, HP; left; reflexivity|].
    intros items. destruct (find _ items); [apply sends_only_ret|].
    apply sends_only_bind.
    + destruct (is_tracks_or_albums func); [|apply sends_only_ret].
      apply sends_only_lookup_by_artist_split. intros t. apply HP. left. reflexivity.
    + intros [item|]; [apply sends_only_ret|].
      apply IH. intros f t Hf. apply HP. right. exact Hf.
Qed.


(** With a hint, the calls of a name lookup: listings allowed by the
    hint, and one search for the hinted type. *)
Lemma hinted_lookup_sends (P : Effect -> bool) (name hint : string) :
  PyStr.truthy hint = true ->
  (forall func t,
      PyStr.contains (PyStr.lower hint) (func_name func) = true ->
      P (music_get_library func t) = true) ->
  P (music_search (PyStr.lower name) [hint]) = true ->
  sends_only P (_get_item_by_name name (Some hint)).
Proof.
  intros Hhint Hlib Hsearch.
  assert (Htruthy : hint_truthy (Some hint) = true) by exact Hhint.
  unfold _get_item_by_name. rewrite Htruthy. cbn [negb orb hint_text].
  apply sends_only_bind.
  - apply sends_only_lookup_in_library. intros func t Hin.
    apply filter_In in Hin as [_ Hc]. apply Hlib. exact Hc.
  - intros [item|]; [apply sends_only_ret|].
    apply sends_only_bind; [|intros res; apply sends_only_ret].
    apply sends_only_call_search. rewrite Htruthy. exact Hsearch.
Qed.

(** X17.  A media-type hint restricts the name lookup.  Every listing
    it queries is one whose method name contains the lowered hint, and
    every search it makes is for the lowered name and that type alone.
    For the engine's five media types this leaves the one listing of
    that type.  A type keyword inside the search string is not looked
    for when a hint is given. *)
Theorem hint_restricts_name_lookup (self : MassPlayer) (name hint : string) :
  PyStr.truthy hint = true ->
  let calls := trace (_get_item_by_name name (Some hint) self) in
  (forall func s,
      In (music_get_library func s) calls ->
      PyStr.contains (PyStr.lower hint) (func_name func) = true)
  /\ (forall (t : MediaType) func s,
         hint = MediaType_value t ->
         In (music_get_library func s) calls ->
         func_name func = "get_library_" ++ MediaType_value t ++ "s")
  /\ (forall sn types,
         In (music_search sn types) calls ->
         sn = PyStr.lower name /\ types = [hint]).
Proof.
  intros Hhint calls.
  assert (Hall : forallb (allowed_by_hint hint) calls = true).
  { apply (hinted_lookup_sends (allowed_by_hint hint) name hint Hhint).
    - intros func t Hc. exact Hc.
    - cbn. apply String.eqb_refl. }
  assert (Hname : forallb (fun e => match e with
                                    | music_search n _ => String.eqb n (PyStr.lower name)
                                    | _ => true
                                    end) calls = true).
  { apply (hinted_lookup_sends _ name hint Hhint).
    - reflexivity.
    - apply String.eqb_refl. }
  rewrite forallb_forall in Hall, Hname.
  split; [|split].
  - intros func s Hin. exact (Hall _ Hin).
  - intros t func s -> Hin. specialize (Hall _ Hin). cbn in Hall.
    destruct t, func; vm_compute in Hall; try discriminate Hall; reflexivity.
  - intros sn types Hin. split.
    + specialize (Hname _ Hin). apply String.eqb_eq in Hname. exact Hname.
    + specialize (Hall _ Hin). cbn in Hall.
      destruct types as [|t [|t' rest]]; try discriminate Hall.
      apply String.eqb_eq in Hall. subst t. reflexivity.
Qed.

Lemma hint_restricts_name_lookup_witness :
  existsb (fun e => match e with
                    | music_get_library func _ =>
                        negb (String.eqb (func_name func) "get_library_albums")
                    | _ => false
                    end)
    (trace (_get_item_by_name "track purple rain" (Some "album") Demo.radio_entity))
  = false.
Proof.
  destruct (existsb _ _) eqn:He; [|reflexivity]. exfalso.
  apply existsb_exists in He as (e & Hin & Hp).
  destruct e; try discriminate Hp.
  rewrite (proj1 (proj2 (hint_restricts_name_lookup Demo.radio_entity
                           "track purple rain" "album" eq_refl))
             ALBUM func search_ eq_refl Hin) in Hp.
  discriminate Hp.
Defined.

(** X18.  A hint that names none of the five listings (the platform's
    generic "music", say) skips the library altogether: the name lookup
    is a single search for the lowered name under that type, and its
    answer is the first hit, tracks before albums before playlists before
    artists before radio. *)
Theorem unknown_hint_goes_straight_to_search (self : MassPlayer) (name hint : string) :
  PyStr.truthy hint = true ->
  (forall func, PyStr.contains (PyStr.lower hint) (func_name func) = false) ->
  let res := search (mass self) (PyStr.lower name) [hint] in
  _get_item_by_name name (Some hint) self
  = mkRun self [music_search (PyStr.lower name) [hint]]
      (Ok (hd_error (sr_tracks res ++ sr_albums res ++ sr_playlists res
                     ++ sr_artists res ++ sr_radio res)%list)).
Proof.
  intros Hhint Hnone res. subst res.
  assert (Htruthy : hint_truthy (Some hint) = true) by exact Hhint.
  unfold _get_item_by_name. rewrite Htruthy.
  cbn [negb orb hint_text all_library_functions filter].
  rewrite !Hnone. rewrite Htruthy. reflexivity.
Qed.

Lemma unknown_hint_goes_straight_to_search_witness :
  _get_item_by_name "Purple Rain" (Some "music") Demo.radio_entity
  = mkRun Demo.radio_entity [music_search "purple rain" ["music"]] (Ok None).
Proof.
  refine (unknown_hint_goes_straight_to_search Demo.radio_entity "Purple Rain" "music"
            eq_refl _).
  intros func. destruct func; reflexivity.
Defined.

Lemma scan_type_keywords_none (keywords : list string) (s : string) :
  fst (scan_type_keywords keywords s) = None ->
  snd (scan_type_keywords keywords s) = s.
Proof.
  induction keywords as [|k rest IH]; cbn [scan_type_keywords]; [reflexivity|].
  destruct (PyStr.contains (k ++ " ") s); [discriminate|exact IH].
Qed.

Lemma scan_type_keywords_in (keywords : list string) (s t stripped : string) :
  scan_type_keywords keywords s = (Some t, stripped) -> In t keywords.
Proof.
  induction keywords as [|k rest IH]; cbn [scan_type_keywords]; intros H;
    [discriminate H|].
  destruct (PyStr.contains (k ++ " ") s).
  - injection H as <- _. left. reflexivity.
  - right. apply IH, H.
Qed.

(** The search string of a hint-less name lookup: the lowered name with
    the first type keyword found ("artist ", "album ", "track ",
    "playlist ", in this order) removed. *)
Lemma get_item_by_name_without_hint (name : string) (self : MassPlayer) :
  let scanned := scan_type_keywords ["artist"; "album"; "track"; "playlist"]
                   (PyStr.lower name) in
  _get_item_by_name name None self
  = (found <- lookup_in_library all_library_functions (snd scanned) ;;
     match found with
     | Some item => ret (Some item)
     | None =>
         res <- call_search (snd scanned)
                  match fst scanned with
                  | Some t => [t]
                  | None => MediaType_ALL
                  end ;;
         ret (hd_error (sr_tracks res ++ sr_albums res ++ sr_playlists res
                        ++ sr_artists res ++ sr_radio res)%list)
     end) self.
Proof.
  intros scanned. subst scanned. unfold _get_item_by_name.
  cbn [hint_truthy negb orb all_library_functions filter].
  pose proof (scan_type_keywords_none ["artist"; "album"; "track"; "playlist"]
                (PyStr.lower name)) as Hnone.
  pose proof (scan_type_keywords_in ["artist"; "album"; "track"; "playlist"]
                (PyStr.lower name)) as Hin.
  destruct (scan_type_keywords ["artist"; "album"; "track"; "playlist"]
              (PyStr.lower name)) as [[t|] stripped]; cbn [fst snd] in *.
  - assert (Ht : PyStr.truthy t = true).
    { destruct (Hin t stripped eq_refl) as [<-|[<-|[<-|[<-|[]]]]]; reflexivity. }
    cbn [hint_truthy hint_text]. rewrite Ht. reflexivity.
  - rewrite (Hnone eq_refl). reflexivity.
Qed.

(** One listing of the library pass: the exact-name test on its items,
    then (tracks and albums) the artist-split lookup, then the next
    listing. *)
Lemma lookup_in_library_step (self : MassPlayer) (func : LibraryFunction)
    (rest : list LibraryFunction) (s : string) :
  lookup_in_library (func :: rest) s self
  = match find (fun item => String.eqb s (PyStr.lower (item_name item)))
            (library_items (mass self) func s) with
    | Some item => mkRun self [music_get_library func s] (Ok (Some item))
    | None =>
        let r1 := if is_tracks_or_albums func
                  then lookup_by_artist_split func s [" - "; " by "] self
                  else mkRun self [] (Ok None) in
        match result r1 with
        | Ok (Some item) =>
            mkRun self (music_get_library func s :: trace r1) (Ok (Some item))
        | _ =>
            let r2 := lookup_in_library rest s self in
            mkRun self (music_get_library func s :: trace r1 ++ trace r2) (result r2)
        end
    end.
Proof.
  cbn [lookup_in_library].
  destruct (query_run _ self (query_lookup_in_library rest s)) as (c2 & f2 & Hr2 & _).
  destruct (query_run _ self
              (query_lookup_by_artist_split func s [" - "; " by "]))
    as (c1 & f1 & Hr1 & _).
  destruct (is_tracks_or_albums func);
    cbv beta iota zeta delta [bind call_library get_self emit ret];
    (destruct (find _ _); [reflexivity|]);
    rewrite ?Hr1; cbv beta iota zeta delta [result trace final]; cbn [app].
  - destruct f1; [rewrite app_nil_r; reflexivity|].
    rewrite Hr2. reflexivity.
  - rewrite Hr2. reflexivity.
Qed.

Lemma lookup_in_library_sound (self : MassPlayer) (funcs : list LibraryFunction)
    (s : string) (item : MediaItem) :
  result (lookup_in_library funcs s self) = Ok (Some item) ->
  exists func t,
    In func funcs
    /\ In (music_get_library func t) (trace (lookup_in_library funcs s self))
    /\ In item (library_items (mass self) func t)
    /\ PyStr.lower (item_name item) = t.
Proof.
  induction funcs as [|func rest IH]; [discriminate|].
  rewrite lookup_in_library_step.
  destruct (find _ _) as [m|] eqn:Hfind.
  - cbn. intros [= <-]. apply find_some in Hfind as [Hin Heq].
    apply String.eqb_eq in Heq.
    exists func, s. repeat split; auto.
  - cbv zeta.
    destruct (is_tracks_or_albums func).
    + destruct (result (lookup_by_artist_split func s [" - "; " by "] self))
        as [[m|]|e] eqn:Hsplit.
      * cbn [result trace]. intros [= <-].
        destruct (lookup_by_artist_split_sound self func s _ m Hsplit)
          as (sp & a & t & _ & _ & _ & Htr & Hin & Hm).
        apply artist_title_match_spec in Hm as [Hname _].
        exists func, t. split; [left; reflexivity|].
        split; [right; exact Htr|]. split; [exact Hin|exact Hname].
      * cbn [result trace]. intros Hrest.
        destruct (IH Hrest) as (f & t & Hf & Htr & Hin & Hname).
        exists f, t. split; [right; exact Hf|].
        split; [right; apply in_or_app; right; exact Htr|]. auto.
      * cbn [result trace]. intros Hrest.
        destruct (IH Hrest) as (f & t & Hf & Htr & Hin & Hname).
        exists f, t. split; [right; exact Hf|].
        split; [right; apply in_or_app; right; exact Htr|]. auto.
    + cbn [result trace app]. intros Hrest.
      destruct (IH Hrest) as (f & t & Hf & Htr & Hin & Hname).
      exists f, t. split; [right; exact Hf|].
      split; [right; exact Htr|]. auto.
Qed.

(** The shape of every name lookup: a pass over some listings with one
    search string, then, if nothing was found, one search. *)
Lemma get_item_by_name_plan (name : string) (media_type_ : option string) :
  exists funcs sn types,
    forall self,
      _get_item_by_name name media_type_ self
      = (found <- lookup_in_library funcs sn ;;
         match found with
         | Some item => ret (Some item)
         | None =>
             res <- call_search sn types ;;
             ret (hd_error (sr_tracks res ++ sr_albums res ++ sr_playlists res
                            ++ sr_artists res ++ sr_radio res)%list)
         end) self.
Proof.
  unfold _get_item_by_name.
  match goal with |- context [let '(a, b) := ?p in _] => destruct p as [mt sn] end.
  eauto.
Qed.

(** X19.  Whatever a name lookup returns came from the engine in that
    very lookup: it is an item of a library listing that was queried and
    its lowered name equals the text that listing was queried with, or it
    is the first hit of the search that was made. *)
Theorem name_lookup_result_comes_from_engine
    (self : MassPlayer) (name : string) (media_type_ : option string)
    (item : MediaItem) :
  let r := _get_item_by_name name media_type_ self in
  result r = Ok (Some item) ->
  (exists func t,
      In (music_get_library func t) (trace r)
      /\ In item (library_items (mass self) func t)
      /\ PyStr.lower (item_name item) = t)
  \/ (exists sn types,
         In (music_search sn types) (trace r)
         /\ let res := search (mass self) sn types in
            hd_error (sr_tracks res ++ sr_albums res ++ sr_playlists res
                      ++ sr_artists res ++ sr_radio res)%list = Some item).
Proof.
  intros r. subst r.
  destruct (get_item_by_name_plan name media_type_) as (funcs & sn & types & Hplan).
  rewrite Hplan. unfold bind, call_search, get_self, emit, ret.
  destruct (query_run _ self (query_lookup_in_library funcs sn))
    as (calls & found & Hrun & _).
  pose proof (lookup_in_library_sound self funcs sn) as Hsound.
  rewrite Hrun in Hsound |- *. cbn [result trace] in Hsound.
  destruct found as [m|].
  - cbn. intros [= <-]. left.
    destruct (Hsound m eq_refl) as (f & t & _ & Htr & Hin & Hname).
    exists f, t. rewrite ?app_nil_r. auto.
  - cbn. intros [= Hhd]. right. exists sn, types. split; [|exact Hhd].
    apply in_or_app. right. left. reflexivity.
Qed.

Lemma name_lookup_result_comes_from_engine_witness :
  (exists func t,
      In (music_get_library func t)
        (trace (_get_item_by_name "Prince - Kiss" (Some "track") Demo.radio_entity))
      /\ In Demo.kiss (library_items (mass Demo.radio_entity) func t)
      /\ PyStr.lower (item_name Demo.kiss) = t)
  \/ (exists sn types,
         In (music_search sn types)
           (trace (_get_item_by_name "Prince - Kiss" (Some "track") Demo.radio_entity))
         /\ let res := search (mass Demo.radio_entity) sn types in
            hd_error (sr_tracks res ++ sr_albums res ++ sr_playlists res
                      ++ sr_artists res ++ sr_radio res)%list = Some Demo.kiss).
Proof.
  exact (name_lookup_result_comes_from_engine Demo.radio_entity "Prince - Kiss"
           (Some "track") Demo.kiss eq_refl).
Defined.

(** X20.  Listings are tried in the order playlists, radios, albums,
    tracks, artists, and an exact name match ends the lookup.  Without a
    hint, a playlist whose lowered name equals the search string is
    returned after that single query, whatever the other listings hold
    (a track of the same name is never asked for). *)
Theorem exact_playlist_match_wins (self : MassPlayer) (name : string) (item : MediaItem) :
  let sn := snd (scan_type_keywords ["artist"; "album"; "track"; "playlist"]
                   (PyStr.lower name)) in
  find (fun it => String.eqb sn (PyStr.lower (item_name it)))
    (get_library_playlists (mass self) sn) = Some item ->
  _get_item_by_name name None self
  = mkRun self [music_get_library LibPlaylists sn] (Ok (Some item))
  /\ PyStr.lower (item_name item) = sn
  /\ In item (get_library_playlists (mass self) sn).
Proof.
  intros sn Hfind.
  rewrite get_item_by_name_without_hint. fold sn.
  unfold all_library_functions, bind. rewrite lookup_in_library_step.
  cbn [library_items]. rewrite Hfind.
  apply find_some in Hfind as [Hin Heq]. apply String.eqb_eq in Heq.
  split; [reflexivity|]. split; [symmetry; exact Heq|exact Hin].
Qed.

Lemma exact_playlist_match_wins_witness :
  let kiss_list := {| media_type := PLAYLIST; item_name := "Kiss";
                      item_uri := "library://playlist/1"; version := "";
                      artists := []; album := None |} in
  let self := MassPlayer_init
                {| get_player_queue := get_player_queue Demo.engine;
                   get_image_url := get_image_url Demo.engine;
                   get_item := get_item Demo.engine;
                   get_library_playlists := Demo.listing [kiss_list];
                   get_library_radios := get_library_radios Demo.engine;
                   get_library_albums := get_library_albums Demo.engine;
                   get_library_tracks := get_library_tracks Demo.engine;
                   get_library_artists := get_library_artists Demo.engine;
                   search := search Demo.engine |}
                "player1" (Demo.player_on "queue1" true IDLE 10) true in
  _get_item_by_name "KISS" None self
  = mkRun self [music_get_library LibPlaylists "kiss"] (Ok (Some kiss_list)).
Proof.
  intros kiss_list self.
  exact (proj1 (exact_playlist_match_wins self "KISS" kiss_list eq_refl)).
Defined.





Lemma lower_ascii_idempotent (c : ascii) :
  PyStr.lower_ascii (PyStr.lower_ascii c) = PyStr.lower_ascii c.
Proof. destruct c as [[] [] [] [] [] [] [] []]; reflexivity. Qed.

Lemma lower_idempotent (s : string) : PyStr.lower (PyStr.lower s) = PyStr.lower s.
Proof.
  induction s as [|c s IH]; cbn; [reflexivity|].
  rewrite lower_ascii_idempotent, IH. reflexivity.
Qed.

(** X22.  The name lookup does not see the case of the request: two
    names with the same lowered form run the same lookups and give the
    same answer; in particular lowering the name first changes
    nothing. *)
Theorem name_lookup_ignores_case (self : MassPlayer) (media_type_ : option string)
    (name1 name2 : string) :
  (PyStr.lower name1 = PyStr.lower name2 ->
   _get_item_by_name name1 media_type_ self = _get_item_by_name name2 media_type_ self)
  /\ _get_item_by_name (PyStr.lower name1) media_type_ self
     = _get_item_by_name name1 media_type_ self.
Proof.
  assert (Hsame : forall a b, PyStr.lower a = PyStr.lower b ->
                              _get_item_by_name a media_type_ self
                              = _get_item_by_name b media_type_ self).
  { intros a b Hl. unfold _get_item_by_name. rewrite Hl. reflexivity. }
  split; [apply Hsame|]. apply Hsame, lower_idempotent.
Qed.

Lemma name_lookup_ignores_case_witness :
  _get_item_by_name "PURPLE Rain" None Demo.radio_entity
  = _get_item_by_name "purple rain" None Demo.radio_entity.
Proof.
  exact (proj1 (name_lookup_ignores_case Demo.radio_entity None
                  "PURPLE Rain" "purple rain") eq_refl).
Defined.



(** X24.  What a play request sends as its command.  After its lookups
    a request sends at most one [play_media], as its last call: it is
    addressed to the active queue's id if the player has one and to the
    player's id otherwise, and carries the enqueue option and the radio
    mode exactly as given. *)
Theorem play_request_command (self : MassPlayer) (media_id : list string)
    (enqueue : option QueueOption) (announce radio_mode : option bool)
    (media_type_ : option string) :
  let r := _async_play_media_advanced media_id enqueue announce radio_mode
             media_type_ self in
  let target :=
    match get_player_queue (mass self) (active_source (player self)) with
    | Some queue => queue_id queue
    | None => player_id self
    end in
  exists queries,
    forallb is_query queries = true
    /\ (trace r = queries
        \/ exists media,
             media <> []
             /\ trace r = (queries ++ [play_media target media enqueue radio_mode])%list).
Proof.
  intros r target. subst r target.
  destruct (play_media_advanced_run self media_id enqueue announce radio_mode
              media_type_) as (calls & Hq & Hrun).
  exists calls. split; [exact Hq|]. rewrite Hrun.
  destruct (resolved_uris self media_type_ media_id) as [|u uris].
  - left. reflexivity.
  - right. exists (u :: uris). split; [discriminate|reflexivity].
Qed.

(** A request made of URIs needs no lookup. *)
Lemma resolve_media_ids_uris (self : MassPlayer) (media_type_ : option string)
    (media_id uris : list string) :
  (forall s, In s media_id -> PyStr.contains "://" s = true) ->
  resolve_media_ids media_type_ media_id uris self
  = mkRun self [] (Ok (uris ++ media_id)%list).
Proof.
  revert uris. induction media_id as [|s rest IH]; intros uris Hall.
  - cbn. rewrite app_nil_r. reflexivity.
  - cbn [resolve_media_ids]. unfold bind, resolve_media_id.
    rewrite (Hall s (or_introl eq_refl)). cbn.
    rewrite IH by (intros t Ht; apply Hall; right; exact Ht).
    rewrite <- app_assoc. reflexivity.
Qed.

(** X25.  A request in which every identifier is a URI is passed
    through: no lookup is made and the one [play_media] call carries the
    identifiers themselves, unchanged and in the order given; an empty
    request sends nothing at all. *)
Theorem uri_request_passes_through (self : MassPlayer) (media_id : list string)
    (enqueue : option QueueOption) (announce radio_mode : option bool)
    (media_type_ : option string) :
  (forall s, In s media_id -> PyStr.contains "://" s = true) ->
  _async_play_media_advanced media_id enqueue announce radio_mode media_type_ self
  = mkRun self
      match media_id with
      | [] => []
      | _ =>
          [play_media
             match get_player_queue (mass self) (active_source (player self)) with
             | Some queue => queue_id queue
             | None => player_id self
             end media_id enqueue radio_mode]
      end
      (Ok tt).
Proof.
  intros Hall. unfold _async_play_media_advanced, bind.
  rewrite (resolve_media_ids_uris self media_type_ media_id [] Hall). cbn [app].
  destruct media_id; reflexivity.
Qed.

Lemma uri_request_passes_through_witness :
  _async_play_media_advanced ["spotify://track/2"; "abc://track/1"]
    (Some QueueADD) None (Some true) None Demo.kiss_entity
  = mkRun Demo.kiss_entity
      [play_media "queue2" ["spotify://track/2"; "abc://track/1"]
         (Some QueueADD) (Some true)]
      (Ok tt).
Proof.
  refine (uri_request_passes_through Demo.kiss_entity
            ["spotify://track/2"; "abc://track/1"] (Some QueueADD) None (Some true)
            None _).
  intros s [<-|[<-|[]]]; reflexivity.
Defined.

(** X26.  Identifiers are resolved one by one, independently and in
    order: the URIs resolved for two lists put together are the URIs of
    the first list followed by those of the second. *)
Theorem resolution_is_per_identifier (self : MassPlayer) (media_type_ : option string)
    (ids1 ids2 uris1 uris2 : list string) :
  result (resolve_media_ids media_type_ ids1 [] self) = Ok uris1 ->
  result (resolve_media_ids media_type_ ids2 [] self) = Ok uris2 ->
  result (resolve_media_ids media_type_ (ids1 ++ ids2) [] self)
  = Ok (uris1 ++ uris2)%list.
Proof.
  intros H1 H2.
  destruct (resolve_media_ids_run self media_type_ ids1 []) as (c1 & Hr1 & _).
  destruct (resolve_media_ids_run self media_type_ ids2 []) as (c2 & Hr2 & _).
  destruct (resolve_media_ids_run self media_type_ (ids1 ++ ids2) []) as (c & Hr & _).
  rewrite Hr1 in H1. rewrite Hr2 in H2. rewrite Hr. cbn in *.
  injection H1 as <-. injection H2 as <-.
  unfold resolved_uris. rewrite flat_map_app. reflexivity.
Qed.

Lemma resolution_is_per_identifier_witness :
  result (resolve_media_ids (Some "track") (["42"; "nothing"] ++ ["abc://x"]) []
            Demo.radio_entity)
  = Ok (["library://track/42"] ++ ["abc://x"])%list.
Proof.
  apply resolution_is_per_identifier; vm_compute; reflexivity.
Defined.





(* ===================================================================== *)
(** ** Entity creation and the platform's play-media entry point *)
(* ===================================================================== *)

Lemma set_mem_In (x : string) (s : list string) : set_mem x s = true <-> In x s.
Proof.
  unfold set_mem. rewrite existsb_exists. split.
  - intros (y & Hin & Heq). apply String.eqb_eq in Heq. subst. exact Hin.
  - intros Hin. exists x. split; [exact Hin|apply String.eqb_refl].
Qed.

Lemma set_add_In (x y : string) (s : list string) :
  In y (set_add x s) <-> y = x \/ In y s.
Proof.
  unfold set_add. destruct (set_mem x s) eqn:Hm.
  - apply set_mem_In in Hm. split; [auto|]. intros [-> | H]; assumption.
  - cbn. split; intros [H|H]; auto.
Qed.

(** The start-up loop creates one entity per listed player, in order,
    and remembers their ids. *)
Lemma setup_loop (players : list string) (st : SetupState) :
  let st' := fold_left
               (fun st player_id_ =>
                  {| added_ids := set_add player_id_ (added_ids st);
                     added_entities := added_entities st ++ [player_id_] |})
               players st in
  added_entities st' = (added_entities st ++ players)%list
  /\ forall x, In x (added_ids st') <-> In x (added_ids st) \/ In x players.
Proof.
  revert st. induction players as [|p rest IH]; intros st; cbn [fold_left].
  - rewrite app_nil_r. split; [reflexivity|]. intros x. cbn. tauto.
  - destruct (IH {| added_ids := set_add p (added_ids st);
                    added_entities := added_entities st ++ [p] |}) as [He Hi].
    cbn [added_ids added_entities] in He, Hi.
    split.
    + rewrite He, <- app_assoc. reflexivity.
    + intros x. rewrite Hi, set_add_In. cbn. intuition congruence.
Qed.

(** What player-added events keep true: entities are distinct, and the
    known ids are exactly the ids that have an entity. *)
Lemma handle_player_added_invariant (st : SetupState) (event : MassEvent) :
  NoDup (added_entities st) ->
  (forall x, In x (added_ids st) <-> In x (added_entities st)) ->
  let st' := handle_player_added st event in
  NoDup (added_entities st')
  /\ (forall x, In x (added_ids st') <-> In x (added_entities st'))
  /\ (forall x, In x (added_entities st') <->
                In x (added_entities st) \/ x = object_id event).
Proof.
  intros Hnd Hsame st'. subst st'. unfold handle_player_added.
  destruct (set_mem (object_id event) (added_ids st)) eqn:Hm.
  - apply set_mem_In, Hsame in Hm.
    split; [exact Hnd|]. split; [exact Hsame|].
    intros x. split; [auto|]. intros [H | ->]; assumption.
  - assert (Hnew : ~ In (object_id event) (added_entities st)).
    { intros Hin. apply Hsame, set_mem_In in Hin. congruence. }
    cbn [added_ids added_entities]. split; [|split].
    + apply NoDup_app; [exact Hnd|repeat constructor; intros []|].
      intros x Hx [<-|[]]. exact (Hnew Hx).
    + intros x. rewrite set_add_In, in_app_iff, Hsame. cbn. intuition congruence.
    + intros x. rewrite in_app_iff. cbn. intuition congruence.
Qed.

(** X28.  One entity per player.  At start-up an entity is created for
    each player the client lists, in that order.  Afterwards a
    player-added event creates an entity only for an id that has none
    yet, so a repeated announcement does nothing: if the listed players
    are distinct, then after any sequence of events the entities are
    distinct, and the players that have one are exactly those listed or
    announced. *)
Theorem one_entity_per_player (players : list string) (events : list MassEvent) :
  added_entities (async_setup_entry players) = players
  /\ (NoDup players ->
      let st := fold_left handle_player_added events (async_setup_entry players) in
      NoDup (added_entities st)
      /\ (forall x, In x (added_entities st) <->
                    In x players \/ In x (map object_id events))
      /\ (forall event,
             In event events -> handle_player_added st event = st)).
Proof.
  destruct (setup_loop players {| added_ids := []; added_entities := [] |})
    as [Hent Hids].
  cbn [added_ids added_entities app] in Hent, Hids.
  fold (async_setup_entry players) in Hent, Hids.
  split; [exact Hent|]. intros Hnd st.
  assert (Hinv : NoDup (added_entities st)
                 /\ (forall x, In x (added_ids st) <-> In x (added_entities st))
                 /\ (forall x, In x (added_entities st) <->
                               In x players \/ In x (map object_id events))).
  { subst st.
    assert (Hstart : NoDup (added_entities (async_setup_entry players))
                     /\ (forall x, In x (added_ids (async_setup_entry players)) <->
                                   In x (added_entities (async_setup_entry players)))
                     /\ (forall x, In x (added_entities (async_setup_entry players)) <->
                                   In x players \/ In x (map object_id []))).
    { rewrite Hent. split; [exact Hnd|]. split.
      - intros x. rewrite Hids. cbn. tauto.
      - intros x. cbn. tauto. }
    revert Hstart. generalize (async_setup_entry players) as st0.
    assert (Hgen : forall evs done st0,
               NoDup (added_entities st0)
               /\ (forall x, In x (added_ids st0) <-> In x (added_entities st0))
               /\ (forall x, In x (added_entities st0) <->
                             In x players \/ In x (map object_id done)) ->
               let st1 := fold_left handle_player_added evs st0 in
               NoDup (added_entities st1)
               /\ (forall x, In x (added_ids st1) <-> In x (added_entities st1))
               /\ (forall x, In x (added_entities st1) <->
                             In x players \/ In x (map object_id (done ++ evs)))).
    { induction evs as [|ev evs IH]; intros done st0 (H1 & H2 & H3); cbn [fold_left].
      - rewrite app_nil_r. auto.
      - destruct (handle_player_added_invariant st0 ev H1 H2) as (H1' & H2' & H3').
        specialize (IH (done ++ [ev])%list (handle_player_added st0 ev)).
        rewrite <- app_assoc in IH. apply IH.
        split; [exact H1'|]. split; [exact H2'|].
        intros x. rewrite H3', H3, map_app, in_app_iff. cbn. intuition congruence. }
    intros st0 Hstart. exact (Hgen events [] st0 Hstart). }
  destruct Hinv as (H1 & H2 & H3).
  split; [exact H1|]. split; [exact H3|].
  intros event Hin. unfold handle_player_added.
  replace (set_mem (object_id event) (added_ids st)) with true; [reflexivity|].
  symmetry. apply set_mem_In, H2, H3. right. apply in_map, Hin.
Qed.

Lemma one_entity_per_player_witness :
  let added i := {| object_id := i; data := PyNum.PyInt 0 |} in
  let st := fold_left handle_player_added
              [added "kitchen"; added "bath"; added "bath"]
              (async_setup_entry ["kitchen"; "living"]) in
  NoDup (added_entities st)
  /\ added_entities st = ["kitchen"; "living"; "bath"].
Proof.
  intros added st.
  assert (Hnd : NoDup ["kitchen"; "living"]).
  { repeat constructor; cbn; intuition discriminate. }
  split.
  - exact (proj1 (proj2 (one_entity_per_player ["kitchen"; "living"]
                           [added "kitchen"; added "bath"; added "bath"]) Hnd)).
  - reflexivity.
Defined.


